(** * Lena icon scripts: a shallow embedding and its checked properties

    The repository holds two stand-alone Python scripts built on Pillow:

    - [scripts/generate_icon.py] (module [GenerateIcon]) paints the icon from
      constants: gradient, rounded mask, glow, the letter, final mask;
    - [scripts/process_icon.py] (module [ProcessIcon]) loads a picture, crops
      it to a centred square, resizes it and writes the four assets.

    Python floats are IEEE binary64 numbers; they are modelled bit-exactly
    with the Standard Library's [SpecFloat] (module [PyFloat]).  Pillow's
    raster operations are modelled on functional pixel buffers (module
    [PIL]).  What comes from outside the scripts (font files, the font
    rasteriser, the PNG codec, the Lanczos kernel, the file system) is an
    explicit environment record. *)

From Stdlib Require Import ZArith List Sorted Permutation Lia QArith Qround Bool String.
From Stdlib Require Import SpecFloat.
From stdpp Require Import gmap strings pretty.
Import ListNotations.
Open Scope Z_scope.

(** ** Python numbers *)

Module PyFloat.

(** binary64: 53 bits of precision, exponents below 1024. *)
Definition prec : Z := 53.
Definition emax : Z := 1024.

Definition float : Type := spec_float.

(** [float(n)] for a Python int, rounded to nearest even. *)
Definition of_int (n : Z) : float := binary_normalize prec emax n 0 false.

Definition fadd : float -> float -> float := SFadd prec emax.
Definition fsub : float -> float -> float := SFsub prec emax.
Definition fmul : float -> float -> float := SFmul prec emax.
Definition fdiv : float -> float -> float := SFdiv prec emax.
Definition fltb : float -> float -> bool := SFltb.

(** [a / b] on two Python ints (true division, [b] not zero). *)
Definition int_truediv (a b : Z) : float := fdiv (of_int a) (of_int b).

(** [x ** 2]: the square of a float.  CPython calls the C library's [pow],
    which returns the rounded product wherever the exact square is a binary64
    number; the squares the script takes are. *)
Definition fsquare (x : float) : float := fmul x x.

(** [int(x)]: truncation towards zero (infinities and NaN raise in Python;
    no computation of the scripts produces them). *)
Definition to_int (x : float) : Z :=
  match x with
  | S754_finite s m e =>
      let a := if 0 <=? e then Z.pos m * 2 ^ e else Z.pos m / 2 ^ (- e) in
      if s then - a else a
  | _ => 0
  end.

(** Decimal literals of the scripts: the binary64 number nearest to the
    decimal, which is what the correctly rounded quotient of two small
    integers gives. *)
Definition lit_0_3 : float := fdiv (of_int 3) (of_int 10).
Definition lit_0_6 : float := fdiv (of_int 6) (of_int 10).
Definition lit_0_4 : float := fdiv (of_int 4) (of_int 10).

End PyFloat.

(** [range(start, stop, step)] with CPython's length formula ([step] not 0). *)
Definition range_len (start stop step : Z) : Z :=
  if 0 <? step then Z.max 0 ((stop - start + step - 1) / step)
  else Z.max 0 ((start - stop - step - 1) / (- step)).

Definition py_range (start stop step : Z) : list Z :=
  map (fun i => start + Z.of_nat i * step)
      (seq 0 (Z.to_nat (range_len start stop step))).

(** ** Pillow *)

Module PIL.

(** A pixel buffer: its size and the value stored at each coordinate.
    Mode ['RGBA'] buffers hold [rgba] pixels, mode ['L'] buffers hold one
    integer per pixel. *)
Record raster (A : Type) : Type := mk_raster
  { width : Z; height : Z; px : Z -> Z -> A }.
Arguments mk_raster {A} _ _ _.
Arguments width {A} _.
Arguments height {A} _.
Arguments px {A} _ _ _.

Record rgba : Type := Rgba { red : Z; green : Z; blue : Z; alpha : Z }.

Definition image : Type := raster rgba.
Definition mask_image : Type := raster Z.

Definition in_bounds {A} (im : raster A) (x y : Z) : bool :=
  (0 <=? x) && (x <? width im) && (0 <=? y) && (y <? height im).

(** [im.getpixel((x, y))]; outside the buffer Pillow raises [IndexError]. *)
Definition getpixel {A} (im : raster A) (x y : Z) : option A :=
  if in_bounds im x y then Some (px im x y) else None.

(** [Image.new(mode, (w, h), color)]. *)
Definition new {A} (w h : Z) (color : A) : raster A :=
  mk_raster w h (fun _ _ => color).

(** A drawing primitive stores [fill] in every pixel of the buffer that the
    shape [covers]; Pillow's [ImageDraw] shapes are not anti-aliased and do
    not blend. *)
Definition paint {A} (covers : Z -> Z -> bool) (fill : A) (im : raster A)
  : raster A :=
  mk_raster (width im) (height im)
    (fun x y => if covers x y && in_bounds im x y then fill else px im x y).

(** One step of a drawing loop: the shape [b] painted with its own fill. *)
Definition paint_step {A B} (covers : B -> Z -> Z -> bool) (fill : B -> A)
    (im : raster A) (b : B) : raster A :=
  paint (covers b) (fill b) im.

(** The last shape of a list that covers the pixel, if any does: the one
    whose fill survives the loop. *)
Definition last_cover {B} (covers : B -> Z -> Z -> bool) (shapes : list B)
    (x y : Z) : option B :=
  fold_left (fun acc b => if covers b x y then Some b else acc) shapes None.

(** [draw.line([(x0, y), (x1, y)], fill)]: a horizontal one-pixel line,
    both end points included. *)
Definition on_hline (x0 x1 y0 : Z) (x y : Z) : bool :=
  (y =? y0) && (Z.min x0 x1 <=? x) && (x <=? Z.max x0 x1).

Definition line_h {A} (im : raster A) (x0 x1 y0 : Z) (fill : A) : raster A :=
  paint (on_hline x0 x1 y0) fill im.

(** *** The rasteriser of Pillow's [libImaging/Draw.c]

    Ellipses are traced on an integer grid of step 2 centred on the ellipse
    ([a], [b]: width and height of the bounding box). *)
Module Draw.

(** [quarter_state]: one quarter of the outline, walked from [(a, b % 2)] to
    [(a % 2, b)]. *)
Record quarter_state : Type := mk_quarter
  { q_cx : Z; q_cy : Z; q_ex : Z; q_ey : Z;
    q_a2 : Z; q_b2 : Z; q_a2b2 : Z; q_finished : bool }.

Definition quarter_init (a b : Z) : quarter_state :=
  if (a <? 0) || (b <? 0) then mk_quarter 0 0 0 0 0 0 0 true
  else mk_quarter a (Z.rem b 2) (Z.rem a 2) b (a * a) (b * b)
                  (a * a * (b * b)) false.

(** [quarter_delta]: how far a grid point is from the ellipse. *)
Definition quarter_delta (s : quarter_state) (x y : Z) : Z :=
  Z.abs (q_a2 s * y * y + q_b2 s * x * x - q_a2b2 s).

Definition quarter_move (s : quarter_state) (x y : Z) : quarter_state :=
  mk_quarter x y (q_ex s) (q_ey s) (q_a2 s) (q_b2 s) (q_a2b2 s) (q_finished s).

Definition quarter_finish (s : quarter_state) : quarter_state :=
  mk_quarter (q_cx s) (q_cy s) (q_ex s) (q_ey s) (q_a2 s) (q_b2 s)
             (q_a2b2 s) true.

(** [quarter_next]: the current point, and the step to the nearest of the
    points above, above-left and left (in this order of preference); [None]
    is the C function's [-1]. *)
Definition quarter_next (s : quarter_state) : option (Z * Z * quarter_state) :=
  if q_finished s then None
  else
    let ret_x := q_cx s in
    let ret_y := q_cy s in
    if (q_cx s =? q_ex s) && (q_cy s =? q_ey s) then
      Some (ret_x, ret_y, quarter_finish s)
    else
      let nx := q_cx s in
      let ny := q_cy s + 2 in
      let ndelta := quarter_delta s nx ny in
      if 1 <? nx then
        let newdelta := quarter_delta s (q_cx s - 2) (q_cy s + 2) in
        let '(nx, ny, ndelta) :=
          if newdelta <? ndelta then (q_cx s - 2, q_cy s + 2, newdelta)
          else (nx, ny, ndelta) in
        let newdelta := quarter_delta s (q_cx s - 2) (q_cy s) in
        let '(nx, ny) :=
          if newdelta <? ndelta then (q_cx s - 2, q_cy s) else (nx, ny) in
        Some (ret_x, ret_y, quarter_move s nx ny)
      else Some (ret_x, ret_y, quarter_move s nx ny).

(** [ellipse_state]: the outer and the inner outline of an ellipse of a given
    line width, the row in hand and the buffer of segments not yet handed
    out (a stack, its top first). *)
Record ellipse_state : Type := mk_ellipse
  { st_o : quarter_state; st_i : quarter_state;
    e_py : Z; e_pl : Z; e_pr : Z;
    e_buf : list (Z * Z * Z);
    e_finished : bool; e_leftmost : Z }.

Definition ellipse_init (a b w : Z) : ellipse_state :=
  let leftmost := Z.rem a 2 in
  let o := quarter_init a b in
  let dead := mk_ellipse o o 0 0 0 [] true leftmost in
  if w <? 1 then dead
  else
    match quarter_next o with
    | None => dead
    | Some (pr, py, o') =>
        mk_ellipse o' (quarter_init (a - 2 * (w - 1)) (b - 2 * (w - 1)))
                   py leftmost pr [] false leftmost
    end.

(** [while ((next_ret = quarter_next(&st, &cx, &cy)) != -1 && cy <= y)
    { l = cx; }]: the first point above row [y] if there is one, the last
    [cx] passed over, and the state left. *)
Fixpoint quarter_skip (fuel : nat) (s : quarter_state) (y l : Z)
  : option (Z * Z) * Z * quarter_state :=
  match fuel with
  | O => (None, l, s)
  | S fuel' =>
      match quarter_next s with
      | None => (None, l, s)
      | Some (cx, cy, s') =>
          if cy <=? y then quarter_skip fuel' s' y cx
          else (Some (cx, cy), l, s')
      end
  end.

(** [ellipse_next]: the next horizontal segment [(x0, y, x1)]. *)
Definition ellipse_next (fuel : nat) (s : ellipse_state)
  : option (Z * Z * Z * ellipse_state) :=
  match e_buf s with
  | seg :: rest =>
      Some (seg, mk_ellipse (st_o s) (st_i s) (e_py s) (e_pl s) (e_pr s) rest
                   (e_finished s) (e_leftmost s))
  | [] =>
      if e_finished s then None
      else
        let y := e_py s in
        let r := e_pr s in
        let '(next_o, _, o') := quarter_skip fuel (st_o s) y 0 in
        let '(fin, pr', py') :=
          match next_o with
          | None => (true, e_pr s, e_py s)
          | Some (cx, cy) => (false, cx, cy)
          end in
        let '(next_i, l, i') := quarter_skip fuel (st_i s) y (e_pl s) in
        let pl' :=
          match next_i with
          | None => e_leftmost s
          | Some (cx, _) => cx
          end in
        let b1 :=
          if ((0 <? l) || (l <? r)) && (0 <? y) then [(- r, y, - l)] else [] in
        let b2 := if 0 <? y then [(l, y, r)] else [] in
        let b3 := if (0 <? l) || (l <? r) then [(- r, - y, - l)] else [] in
        let b4 := [(l, - y, r)] in
        match b4 ++ b3 ++ b2 ++ b1 with
        | seg :: rest =>
            Some (seg, mk_ellipse o' i' py' pl' pr' rest fin (e_leftmost s))
        | [] => None
        end
  end.

Fixpoint ellipse_run (fuel inner : nat) (s : ellipse_state)
  : list (Z * Z * Z) :=
  match fuel with
  | O => []
  | S fuel' =>
      match ellipse_next inner s with
      | None => []
      | Some (seg, s') => seg :: ellipse_run fuel' inner s'
      end
  end.

(** All the segments of an ellipse; a row yields at most four of them and a
    quarter has fewer than [a + b + 4] points. *)
Definition ellipse_segments (a b w : Z) : list (Z * Z * Z) :=
  ellipse_run (Z.to_nat (2 * b + 8)) (Z.to_nat (a + b + 4))
              (ellipse_init a b w).

(** [ellipseNew] with [fill] set: the line width is [a + b] and every
    segment becomes the [hline] from [x0 + (X0 + a) / 2] to
    [x0 + (X1 + a) / 2] on row [y0 + (Y + b) / 2]. *)
Definition ellipse_hlines (x0 y0 x1 y1 : Z) : list (Z * Z * Z) :=
  let a := x1 - x0 in
  let b := y1 - y0 in
  if (a <? 0) || (b <? 0) then []
  else map (fun '(X0, Y, X1) =>
              (x0 + (X0 + a) ÷ 2, y0 + (Y + b) ÷ 2, x0 + (X1 + a) ÷ 2))
           (ellipse_segments a b (a + b)).

Definition on_hlines (lines : list (Z * Z * Z)) (x y : Z) : bool :=
  existsb (fun '(xa, yy, xb) => (y =? yy) && (xa <=? x) && (x <=? xb)) lines.

End Draw.

(** [draw.ellipse([x0, y0, x1, y1], fill)]: the pixels on the horizontal
    lines Pillow draws for the filled ellipse. *)
Definition in_ellipse (x0 y0 x1 y1 : Z) (x y : Z) : bool :=
  Draw.on_hlines (Draw.ellipse_hlines x0 y0 x1 y1) x y.

Definition ellipse {A} (im : raster A) (x0 y0 x1 y1 : Z) (fill : A)
  : raster A :=
  paint (in_ellipse x0 y0 x1 y1) fill im.

Definition clamp (lo hi v : Z) : Z := Z.max lo (Z.min hi v).

(** A filled [pieslice] over one quarter turn: the part of the filled
    ellipse on that side of its two centre lines, the lines included. *)
Inductive quadrant : Type := TopLeft | TopRight | BottomRight | BottomLeft.

Definition in_quadrant (q : quadrant) (x0 y0 x1 y1 : Z) (x y : Z) : bool :=
  let mx := x0 + (x1 - x0) ÷ 2 in
  let my := y0 + (y1 - y0) ÷ 2 in
  match q with
  | TopLeft => (x <=? mx) && (y <=? my)
  | TopRight => (mx <=? x) && (y <=? my)
  | BottomRight => (mx <=? x) && (my <=? y)
  | BottomLeft => (x <=? mx) && (my <=? y)
  end.

Definition in_pieslice (q : quadrant) (x0 y0 x1 y1 : Z) (x y : Z) : bool :=
  in_ellipse x0 y0 x1 y1 x y && in_quadrant q x0 y0 x1 y1 x y.

Definition in_rectangle (x0 y0 x1 y1 : Z) (x y : Z) : bool :=
  (x0 <=? x) && (x <=? x1) && (y0 <=? y) && (y <=? y1).

(** [draw.rounded_rectangle([(x0, y0), (x1, y1)], radius, fill)] where the
    four corners are separate ([2 * radius] less than both sides minus one,
    as in the script's call): Pillow's [ImageDraw.rounded_rectangle] fills
    four pieslices of diameter [d = 2 * radius] in the corners, the
    rectangle between them from top to bottom, and the two rectangles left
    and right of it between the corners. *)
Definition in_rounded_rect (x0 y0 x1 y1 radius : Z) (x y : Z) : bool :=
  let d := radius * 2 in
  let r := d / 2 in
  in_pieslice TopLeft x0 y0 (x0 + d) (y0 + d) x y
  || in_pieslice TopRight (x1 - d) y0 x1 (y0 + d) x y
  || in_pieslice BottomRight (x1 - d) (y1 - d) x1 y1 x y
  || in_pieslice BottomLeft x0 (y1 - d) (x0 + d) y1 x y
  || in_rectangle (x0 + r + 1) y0 (x1 - r - 1) y1 x y
  || in_rectangle x0 (y0 + r + 1) (x0 + r) (y1 - r - 1) x y
  || in_rectangle (x1 - r) (y0 + r + 1) x1 (y1 - r - 1) x y.

Definition rounded_rectangle {A} (im : raster A) (x0 y0 x1 y1 radius : Z)
    (fill : A) : raster A :=
  paint (in_rounded_rect x0 y0 x1 y1 radius) fill im.

(** [img.putalpha(mask)]: the alpha band is replaced by the mask's values;
    the colour bands stay. *)
Definition set_alpha (p : rgba) (a : Z) : rgba :=
  Rgba (red p) (green p) (blue p) a.

Definition putalpha (im : image) (mask : mask_image) : image :=
  mk_raster (width im) (height im)
    (fun x y => set_alpha (px im x y) (px mask x y)).

(** Pillow's 8-bit arithmetic: [SHIFTFORDIV255], [MULDIV255], [BLEND]. *)
Definition shift_for_div255 (a : Z) : Z :=
  Z.shiftr (Z.shiftr a 8 + a) 8.

Definition muldiv255 (a b : Z) : Z := shift_for_div255 (a * b + 128).

Definition blend (m in1 in2 : Z) : Z :=
  muldiv255 in1 (255 - m) + muldiv255 in2 m.

Definition blend_rgba (m : Z) (p ink : rgba) : rgba :=
  Rgba (blend m (red p) (red ink)) (blend m (green p) (green ink))
       (blend m (blue p) (blue ink)) (blend m (alpha p) (alpha ink)).

(** [Image.alpha_composite(dst, src)]: [src] over [dst], Pillow's integer
    implementation with seven extra bits of precision. *)
Definition precision_bits : Z := 7.

Definition composite_pixel (dst src : rgba) : rgba :=
  if alpha src =? 0 then dst
  else
    let blend_a := alpha dst * (255 - alpha src) in
    let outa255 := alpha src * 255 + blend_a in
    let coef1 :=
      alpha src * 255 * 255 * Z.shiftl 1 precision_bits / outa255 in
    let coef2 := 255 * Z.shiftl 1 precision_bits - coef1 in
    let chan (s d : Z) :=
      Z.shiftr
        (shift_for_div255
           (s * coef1 + d * coef2 + Z.shiftl 128 precision_bits))
        precision_bits in
    Rgba (chan (red src) (red dst)) (chan (green src) (green dst))
         (chan (blue src) (blue dst)) (shift_for_div255 (outa255 + 128)).

Definition alpha_composite (dst src : image) : image :=
  mk_raster (width dst) (height dst)
    (fun x y => composite_pixel (px dst x y) (px src x y)).

(** [img.crop((left, upper, right, lower))]: a new buffer of size
    [right - left] by [lower - upper]; what lies outside the source is
    transparent black. *)
Definition crop (im : image) (left upper right lower : Z) : image :=
  mk_raster (right - left) (lower - upper)
    (fun i j =>
       if in_bounds im (left + i) (upper + j)
       then px im (left + i) (upper + j)
       else Rgba 0 0 0 0).

(** [dst.paste(src, (ox, oy), src)]: [src] blended into [dst] at the
    offset, weighted by [src]'s own alpha band. *)
Definition paste (dst src : image) (ox oy : Z) : image :=
  mk_raster (width dst) (height dst)
    (fun x y =>
       if in_bounds src (x - ox) (y - oy) && in_bounds dst x y then
         let s := px src (x - ox) (y - oy) in
         blend_rgba (alpha s) (px dst x y) s
       else px dst x y).

(** A loaded font, as far as the scripts use it: the bounding box
    [draw.textbbox((0, 0), text, font=font)] and the rasterised glyphs,
    [coverage text (x, y) px py] being the 8-bit coverage at pixel
    [(px, py)] of [text] drawn at the (float) position [(x, y)]. *)
Record font : Type := mk_font
  { textbbox : string -> Z * Z * Z * Z;
    coverage : string -> PyFloat.float * PyFloat.float -> Z -> Z -> Z }.

(** [draw.text(xy, text, fill, font)]: the ink is blended into every
    channel, alpha included, with the glyph coverage as weight; over a fully
    transparent pixel that the glyph touches, the colour channels take the
    ink at full weight. *)
Definition ink_pixel (m : Z) (p ink : rgba) : rgba :=
  let cm := if negb (m =? 0) && (alpha p =? 0) then 255 else m in
  Rgba (blend cm (red p) (red ink)) (blend cm (green p) (green ink))
       (blend cm (blue p) (blue ink)) (blend m (alpha p) (alpha ink)).

Definition draw_text (im : image) (xy : PyFloat.float * PyFloat.float)
    (text : string) (fill : rgba) (f : font) : image :=
  mk_raster (width im) (height im)
    (fun x y =>
       if in_bounds im x y then
         ink_pixel (clamp 0 255 (coverage f text xy x y)) (px im x y) fill
       else px im x y).

End PIL.

(** ** Exceptions *)

Inductive result (A : Type) : Type :=
| Ok (a : A)
| Raised (e : string).
Arguments Ok {A} _.
Arguments Raised {A} _.

#[global] Instance result_ret : MRet result := fun _ a => Ok a.
#[global] Instance result_bind : MBind result := fun _ _ k m =>
  match m with
  | Ok a => k a
  | Raised e => Raised e
  end.

(** [try: body / except: handler], with a bare [except] that catches
    everything. *)
Definition try_except {A} (body : result A) (handler : result A) : result A :=
  match body with
  | Ok a => Ok a
  | Raised _ => handler
  end.


(** ** scripts/generate_icon.py *)

Module GenerateIcon.
Import PyFloat PIL.

Definition SIZE : Z := 1024.

Definition rgb : Type := (Z * Z * Z)%type.

(** [lerp_color(c1, c2, t)]: per channel [int(c1[i] + (c2[i] - c1[i]) * t)]. *)
Definition lerp_channel (a b : Z) (t : float) : Z :=
  to_int (fadd (of_int a) (fmul (of_int (b - a)) t)).

Definition lerp_color (c1 c2 : rgb) (t : float) : rgb :=
  let '(r1, g1, b1) := c1 in
  let '(r2, g2, b2) := c2 in
  (lerp_channel r1 r2 t, lerp_channel g1 g2 t, lerp_channel b1 b2 t).

Definition color_top : rgb := (245, 230, 211).
Definition color_mid1 : rgb := (229, 160, 92).
Definition color_mid2 : rgb := (217, 133, 59).
Definition color_bottom : rgb := (184, 114, 46).

(** The body of the gradient loop: the colour chosen for row [y]. *)
Definition gradient_color (y : Z) : rgb :=
  let t := int_truediv y SIZE in
  if fltb t lit_0_3 then
    lerp_color color_top color_mid1 (fdiv t lit_0_3)
  else if fltb t lit_0_6 then
    lerp_color color_mid1 color_mid2 (fdiv (fsub t lit_0_3) lit_0_3)
  else
    lerp_color color_mid2 color_bottom (fdiv (fsub t lit_0_6) lit_0_4).

Definition opaque (c : rgb) : rgba :=
  let '(r, g, b) := c in Rgba r g b 255.

Definition gradient_step (img : image) (y : Z) : image :=
  line_h img 0 (SIZE - 1) y (opaque (gradient_color y)).

(** [for y in range(SIZE): ... draw.line(...)]. *)
Definition draw_gradient (img : image) : image :=
  fold_left gradient_step (py_range 0 SIZE 1) img.

Definition blank : image := new SIZE SIZE (Rgba 0 0 0 0).

Definition gradient_canvas : image := draw_gradient blank.

(** *** The gradient as the specification words it

    Exact rational arithmetic: [t = y/S], the three segments, and
    [a + (b - a) * f] truncated to an integer. *)
Module Formula.

Definition Qltb (a b : Q) : bool := negb (Qle_bool b a).

Definition Qtrunc (q : Q) : Z := Z.quot (Qnum q) (Z.pos (Qden q)).

Definition interpolate_channel (a b : Z) (f : Q) : Z :=
  Qtrunc (inject_Z a + inject_Z (b - a) * f)%Q.

Definition interpolate (a b : rgb) (f : Q) : rgb :=
  let '(r1, g1, b1) := a in
  let '(r2, g2, b2) := b in
  (interpolate_channel r1 r2 f, interpolate_channel g1 g2 f,
   interpolate_channel b1 b2 f).

Definition row_color (y : Z) : rgb :=
  let t := (inject_Z y / inject_Z SIZE)%Q in
  if Qltb t (3 # 10) then
    interpolate color_top color_mid1 (t / (3 # 10))%Q
  else if Qltb t (6 # 10) then
    interpolate color_mid1 color_mid2 ((t - (3 # 10)) / (3 # 10))%Q
  else
    interpolate color_mid2 color_bottom ((t - (6 # 10)) / (4 # 10))%Q.

End Formula.

Definition rgb_eqb (c d : rgb) : bool :=
  let '(r1, g1, b1) := c in
  let '(r2, g2, b2) := d in
  (r1 =? r2) && (g1 =? g2) && (b1 =? b2).

(** *** The rounded mask *)

Definition corner_radius : Z := 224.

Definition icon_mask : mask_image :=
  rounded_rectangle (new SIZE SIZE 0) 0 0 (SIZE - 1) (SIZE - 1)
    corner_radius 255.

(** *** The glow layer *)

Definition center_x : Z := SIZE / 2.
Definition center_y : Z := SIZE / 3.
Definition max_radius : Z := SIZE / 2.

(** [int(40 * (1 - r / max_radius) ** 2)]. *)
Definition glow_alpha (r : Z) : Z :=
  to_int (fmul (of_int 40)
               (fsquare (fsub (of_int 1) (int_truediv r max_radius)))).

Definition glow_fill (r : Z) : rgba := Rgba 255 255 255 (glow_alpha r).

Definition glow_step (glow : image) (r : Z) : image :=
  ellipse glow (center_x - r) (center_y - r) (center_x + r) (center_y + r)
    (glow_fill r).

(** The radii of [for r in range(max_radius, 0, -2)]. *)
Definition glow_radii : list Z := py_range max_radius 0 (-2).

(** The circles in any order: [draw_glow glow_radii] is the script's loop. *)
Definition draw_glow (radii : list Z) : image :=
  fold_left glow_step radii blank.

Definition glow_layer : image := draw_glow glow_radii.


Definition circle_covers (r x y : Z) : bool :=
  in_ellipse (center_x - r) (center_y - r) (center_x + r) (center_y + r) x y.

Definition glow_alpha_at (radii : list Z) (x y : Z) : Z :=
  alpha (px (draw_glow radii) x y).

(** The glow alpha as the specification words it, in exact arithmetic:
    [floor(40 * (1 - r/R)^2)]. *)
Definition formula_glow_alpha (r : Z) : Z :=
  Qfloor (inject_Z 40 * (1 - inject_Z r / inject_Z max_radius) ^ 2)%Q.

(** *** Font resolution *)

(** What the script reads from the machine it runs on. *)
Record env : Type := mk_env
  { path_exists : string -> bool;              (* os.path.exists *)
    truetype : string -> Z -> result font;     (* ImageFont.truetype *)
    load_default : font }.                     (* ImageFont.load_default *)

Definition font_paths : list string :=
  [ "/System/Library/Fonts/Supplemental/Georgia Bold.ttf";
    "/System/Library/Fonts/Supplemental/Georgia.ttf";
    "/System/Library/Fonts/Supplemental/Times New Roman Bold.ttf";
    "/System/Library/Fonts/NewYork.ttf";
    "/System/Library/Fonts/Helvetica.ttc";
    "/System/Library/Fonts/SFCompact.ttf" ]%string.

Definition font_size : Z := 520.

(** The [for fp in font_paths] loop: [Some] is the [break], going on with
    the rest of the list is falling through or [continue]. *)
Fixpoint font_loop (E : env) (paths : list string)
  : result (option (string * font)) :=
  match paths with
  | [] => Ok None
  | fp :: rest =>
      if path_exists E fp then
        try_except
          (f ← truetype E fp font_size; Ok (Some (fp, f)))
          (font_loop E rest)
      else font_loop E rest
  end.

(** A candidate that does not resolve: the path is missing, or loading it
    raises. *)
Definition unusable (E : env) (fp : string) : Prop :=
  path_exists E fp = false \/ exists e, truetype E fp font_size = Raised e.

(** The font and the line printed about it. *)
Definition resolve_font (E : env) : result (font * string) :=
  found ← font_loop E font_paths;
  match found with
  | Some (fp, f) => Ok (f, "Using font: " +:+ fp)
  | None => Ok (load_default E, "Using default font"%string)
  end.

(** *** The letter *)

Definition letter : string := "L".
Definition shadow_offset : Z := 6.
Definition shadow_fill : rgba := Rgba 0 0 0 35.
Definition letter_fill : rgba := Rgba 255 255 255 245.

(** [x] and [y] of the script, from the bounding box. *)
Definition letter_position (f : font) : float * float :=
  let '(b0, b1, b2, b3) := textbbox f letter in
  let text_width := b2 - b0 in
  let text_height := b3 - b1 in
  (fsub (int_truediv (SIZE - text_width) 2) (of_int b0),
   fsub (fsub (int_truediv (SIZE - text_height) 2) (of_int b1))
        (of_int 10)).

Definition draw_letter (img : image) (f : font) : image :=
  let '(x, y) := letter_position f in
  let img :=
    draw_text img
      (fadd x (of_int shadow_offset), fadd y (of_int shadow_offset))
      letter shadow_fill f in
  draw_text img (x, y) letter letter_fill f.

(** *** [create_icon], stage by stage *)

Definition masked_gradient : image := putalpha gradient_canvas icon_mask.
Definition glowing : image := alpha_composite masked_gradient glow_layer.
Definition masked_glow : image := putalpha glowing icon_mask.
Definition lettered (f : font) : image := draw_letter masked_glow f.
Definition finished (f : font) : image := putalpha (lettered f) icon_mask.

(** The returned canvas and what was printed. *)
Definition create_icon (E : env) : result (image * string) :=
  '(f, printed) ← resolve_font E;
  Ok (finished f, printed).

(** The three [img.putalpha(mask)] calls: the canvas just before and just
    after each. *)
Definition mask_applications (f : font) : list (image * image) :=
  [ (gradient_canvas, masked_gradient);
    (glowing, masked_glow);
    (lettered f, finished f) ].

End GenerateIcon.


(** ** scripts/process_icon.py *)

Module ProcessIcon.
Import PyFloat PIL.

Definition SOURCE : string :=
  "/Users/francesco.pontrandolfo/Downloads/Gemini_Generated_Image_1revf41revf41rev.png".
Definition ASSETS_DIR : string := "/Users/francesco.pontrandolfo/Lena/assets".
Definition TARGET_SIZE : Z := 1024.

(** [os.path.join(ASSETS_DIR, name)]. *)
Definition asset_path (name : string) : string := ASSETS_DIR +:+ "/" +:+ name.

Definition asset_names : list string :=
  [ "icon.png"; "adaptive-icon.png"; "splash-icon.png"; "favicon.png" ]%string.

(** The box handed to [img.crop]: [(left, top, left + side, top + side)]. *)
Definition crop_box (w h : Z) : Z * Z * Z * Z :=
  let side := Z.min w h in
  let left := (w - side) / 2 in
  let top := (h - side) / 2 in
  (left, top, left + side, top + side).

Definition crop_square_center (img : image) : image :=
  let '(x0, y0, x1, y1) := crop_box (width img) (height img) in
  crop img x0 y0 x1 y1.

(** What the script takes from outside: the PNG codec, the Lanczos kernel
    and which paths can be written. *)
Record env : Type := mk_env
  { decode : list Byte.byte -> result image;    (* Image.open(..).convert('RGBA') *)
    encode : image -> list Byte.byte;           (* the bytes img.save writes *)
    lanczos : image -> Z -> Z -> image;         (* resampling to a new size *)
    writable : string -> bool }.

(** [img.resize((w, h), Image.LANCZOS)]: Pillow returns a copy when the
    requested size is the size the image already has, and resamples
    otherwise. *)
Definition resize (E : env) (img : image) (w h : Z) : image :=
  if (width img =? w) && (height img =? h) then img
  else mk_raster w h (px (lanczos E img w h)).

(** [create_splash(icon, target_size)]. *)
Definition create_splash (E : env) (icon : image) (target_size : Z) : image :=
  let splash := new target_size target_size (Rgba 254 253 251 255) in
  let icon_size := to_int (fmul (of_int target_size) lit_0_4) in
  let small_icon := resize E icon icon_size icon_size in
  let offset := (target_size - icon_size) / 2 in
  paste splash small_icon offset offset.

(** The state a run acts on: the files on disk and the lines printed. *)
Record world : Type := mk_world
  { files : gmap string (list Byte.byte); stdout : list string }.

(** A step of the script: a result or an exception, and the world it
    leaves behind either way. *)
Definition io (A : Type) : Type := world -> result A * world.

#[global] Instance io_ret : MRet io := fun _ a w => (Ok a, w).
#[global] Instance io_bind : MBind io := fun _ _ k m w =>
  match m w with
  | (Ok a, w') => k a w'
  | (Raised e, w') => (Raised e, w')
  end.

Definition print (line : string) : io unit := fun w =>
  (Ok tt, mk_world (files w) (stdout w ++ [line])).

Definition newline : string := String (Ascii.ascii_of_nat 10) EmptyString.

(** [f"{img.size}"]: a size as Python prints a pair. *)
Definition show_size (img : image) : string :=
  "(" +:+ pretty (width img) +:+ ", " +:+ pretty (height img) +:+ ")".

(** [Image.open(path)], here with the decoding that [.convert('RGBA')] or a
    later use forces. *)
Definition open_rgba (E : env) (path : string) : io image := fun w =>
  match files w !! path with
  | None => (Raised "FileNotFoundError", w)
  | Some bytes => (decode E bytes, w)
  end.

(** [img.save(path, 'PNG')]. *)
Definition save (E : env) (img : image) (path : string) : io unit := fun w =>
  if writable E path then
    (Ok tt, mk_world (<[path := encode E img]> (files w)) (stdout w))
  else (Raised "OSError", w).

(** [os.path.getsize(path)]. *)
Definition getsize (path : string) : io Z := fun w =>
  match files w !! path with
  | None => (Raised "FileNotFoundError", w)
  | Some bytes => (Ok (Z.of_nat (length bytes)), w)
  end.

(** The closing [for name in [...]] loop reopens every asset and prints its
    size. *)
Fixpoint verify (E : env) (names : list string) : io unit :=
  match names with
  | [] => mret tt
  | name :: rest =>
      verify_img ← open_rgba E (asset_path name);
      size ← getsize (asset_path name);
      _ ← print ("  " +:+ name +:+ ": " +:+ show_size verify_img +:+ " ("
                 +:+ pretty (size / 1024) +:+ "KB)");
      verify E rest
  end.

(** The [__main__] block. *)
Definition main (E : env) : io unit :=
  _ ← print ("Loading source: " +:+ SOURCE);
  img ← open_rgba E SOURCE;
  _ ← print ("Original size: " +:+ show_size img);
  let squared := crop_square_center img in
  _ ← print ("Cropped square: " +:+ show_size squared);
  let icon := resize E squared TARGET_SIZE TARGET_SIZE in
  _ ← print ("Upscaled: " +:+ show_size icon);
  _ ← save E icon (asset_path "icon.png");
  _ ← print ("Saved: " +:+ asset_path "icon.png");
  _ ← save E icon (asset_path "adaptive-icon.png");
  _ ← print ("Saved: " +:+ asset_path "adaptive-icon.png");
  let splash := create_splash E icon 1024 in
  _ ← save E splash (asset_path "splash-icon.png");
  _ ← print ("Saved: " +:+ asset_path "splash-icon.png");
  let favicon := resize E icon 48 48 in
  _ ← save E favicon (asset_path "favicon.png");
  _ ← print ("Saved: " +:+ asset_path "favicon.png");
  _ ← verify E asset_names;
  print (newline +:+ "All icons generated successfully!").

End ProcessIcon.

(** ** scripts/generate_icon.py: the splash and the [__main__] block *)

Module GenerateMain.
Import PyFloat PIL.

(** [create_splash_icon(icon_img)].  The resampler is the machine's, as in
    the other script. *)
Definition create_splash_icon (E : ProcessIcon.env) (icon_img : image) : image :=
  let splash :=
    new GenerateIcon.SIZE GenerateIcon.SIZE (Rgba 254 253 251 255) in
  let icon_size := 400 in
  let small_icon := ProcessIcon.resize E icon_img icon_size icon_size in
  let offset := (GenerateIcon.SIZE - icon_size) / 2 in
  paste splash small_icon offset offset.

(** [ASSETS_DIR]: the directory [assets] beside the script's own directory;
    [root] is [dirname(dirname(abspath(__file__)))]. *)
Definition ASSETS_DIR (root : string) : string := root +:+ "/assets".

Definition asset_path (root name : string) : string :=
  ASSETS_DIR root +:+ "/" +:+ name.

(** A computation without effects on the world, its exception kept. *)
Definition lift {A} (r : result A) : ProcessIcon.io A := fun w => (r, w).

(** The [__main__] block; the line [create_icon] prints about the font comes
    out when [create_icon] runs. *)
Definition main (F : GenerateIcon.env) (E : ProcessIcon.env) (root : string)
  : ProcessIcon.io unit :=
  _ ← ProcessIcon.print "Generating Lena app icon...";
  '(icon, line) ← lift (GenerateIcon.create_icon F);
  _ ← ProcessIcon.print line;
  let icon_path := asset_path root "icon.png" in
  _ ← ProcessIcon.save E icon icon_path;
  _ ← ProcessIcon.print ("Saved: " +:+ icon_path);
  let adaptive_path := asset_path root "adaptive-icon.png" in
  _ ← ProcessIcon.save E icon adaptive_path;
  _ ← ProcessIcon.print ("Saved: " +:+ adaptive_path);
  let splash := create_splash_icon E icon in
  let splash_path := asset_path root "splash-icon.png" in
  _ ← ProcessIcon.save E splash splash_path;
  _ ← ProcessIcon.print ("Saved: " +:+ splash_path);
  let favicon := ProcessIcon.resize E icon 48 48 in
  let favicon_path := asset_path root "favicon.png" in
  _ ← ProcessIcon.save E favicon favicon_path;
  _ ← ProcessIcon.print ("Saved: " +:+ favicon_path);
  ProcessIcon.print (ProcessIcon.newline +:+ "All icons generated successfully!").

End GenerateMain.

(** ** Vocabulary of the further properties *)

Module Vocabulary.
Import PyFloat PIL.

(** An 8-bit channel value, and a pixel made of four of them. *)
Definition is_byte (c : Z) : Prop := 0 <= c <= 255.

Definition byte_pixel (p : rgba) : Prop :=
  is_byte (red p) /\ is_byte (green p) /\ is_byte (blue p) /\ is_byte (alpha p).

Definition byte_values : list Z := py_range 0 256 1.

(** Where [create_icon] draws the shadow, and the glyph coverage of the
    letter and of its shadow at a pixel. *)
Definition shadow_position (f : font) : float * float :=
  let '(x, y) := GenerateIcon.letter_position f in
  (fadd x (of_int GenerateIcon.shadow_offset),
   fadd y (of_int GenerateIcon.shadow_offset)).

Definition letter_coverage (f : font) (x y : Z) : Z :=
  coverage f GenerateIcon.letter (GenerateIcon.letter_position f) x y.

Definition shadow_coverage (f : font) (x y : Z) : Z :=
  coverage f GenerateIcon.letter (shadow_position f) x y.

(** The background of both splash screens. *)
Definition splash_background : rgba := Rgba 254 253 251 255.

(** A run leaves every file outside [paths] as it was. *)
Definition touches_only {A} (paths : list string) (m : ProcessIcon.io A) : Prop :=
  forall (w : ProcessIcon.world) (path : string),
    ~ In path paths ->
    ProcessIcon.files (snd (m w)) !! path = ProcessIcon.files w !! path.

(** The four files the post-processor writes. *)
Definition process_assets : list string :=
  map ProcessIcon.asset_path ProcessIcon.asset_names.

(** The four files the synthesizer writes. *)
Definition generate_assets (root : string) : list string :=
  map (GenerateMain.asset_path root) ProcessIcon.asset_names.

(** A row of the gradient against the next one: no channel rises, none
    falls by more than one level. *)
Definition row_check (y : Z) : bool :=
  let '(r, g, b) := GenerateIcon.gradient_color y in
  let '(r', g', b') := GenerateIcon.gradient_color (y + 1) in
  (r' <=? r) && (r <=? r' + 1) && (g' <=? g) && (g <=? g' + 1)
  && (b' <=? b) && (b <=? b' + 1).

(** The channels of a row's colour are bytes. *)
Definition row_bytes (y : Z) : bool :=
  let '(r, g, b) := GenerateIcon.gradient_color y in
  (0 <=? r) && (r <=? 255) && (0 <=? g) && (g <=? 255)
  && (0 <=? b) && (b <=? 255).

(** *** The glow circles as Pillow rasterises them *)









End Vocabulary.


(** ** Concrete images and environments

    Inputs on which the properties below are exercised. *)

Module Samples.
Import PyFloat PIL.

(** A picture whose pixels all differ from their neighbours. *)
Definition checker (w h : Z) : image :=
  mk_raster w h (fun x y => Rgba (x mod 256) (y mod 256) ((x + y) mod 256) 255).

(** Nearest-neighbour resampling, standing in for the Lanczos kernel. *)
Definition nearest (img : image) (w h : Z) : image :=
  mk_raster w h (fun x y => px img (x * width img / w) (y * height img / h)).

(** A machine on which no file decodes and every path can be written. *)
Definition no_codec : ProcessIcon.env :=
  ProcessIcon.mk_env (fun _ => Raised "UnidentifiedImageError")
                     (fun _ => []) nearest (fun _ => true).

Definition empty_disk : ProcessIcon.world := ProcessIcon.mk_world ∅ [].

(** A disk that holds a source file of three bytes that is not a picture. *)
Definition junk_disk : ProcessIcon.world :=
  ProcessIcon.mk_world
    {[ ProcessIcon.SOURCE := [Byte.x00; Byte.x01; Byte.x02] ]} [].

(** A font whose letter is two bars, [t] pixels thick, in a box of [w] by
    [h] pixels, fully covered where inked. *)
Definition block_L (w h t : Z) : font :=
  mk_font
    (fun _ => (0, 0, w, h))
    (fun _ xy x y =>
       let dx := x - to_int (fst xy) in
       let dy := y - to_int (snd xy) in
       if ((0 <=? dx) && (dx <? t) && (0 <=? dy) && (dy <? h))
          || ((0 <=? dx) && (dx <? w) && (h - t <=? dy) && (dy <? h))
       then 255 else 0).

Definition serif : font := block_L 300 370 80.
Definition builtin : font := block_L 6 10 1.

Definition georgia_bold : string :=
  "/System/Library/Fonts/Supplemental/Georgia Bold.ttf".
Definition georgia : string :=
  "/System/Library/Fonts/Supplemental/Georgia.ttf".

(** A machine with Georgia Bold installed. *)
Definition mac : GenerateIcon.env :=
  GenerateIcon.mk_env (fun fp => String.eqb fp georgia_bold)
                      (fun _ _ => Ok serif) builtin.

(** A machine with none of the listed fonts. *)
Definition bare : GenerateIcon.env :=
  GenerateIcon.mk_env (fun _ => false) (fun _ _ => Raised "OSError") builtin.

(** A machine whose Georgia Bold file is damaged and whose Georgia loads. *)
Definition damaged : GenerateIcon.env :=
  GenerateIcon.mk_env
    (fun fp => String.eqb fp georgia_bold || String.eqb fp georgia)
    (fun fp _ => if String.eqb fp georgia then Ok serif else Raised "OSError")
    builtin.

End Samples.

(** ** More concrete environments *)

Module MoreSamples.
Import PyFloat PIL.

(** A codec that stores only the size of a picture, in two bytes each. *)
Definition size_bytes (n : Z) : list Byte.byte :=
  match Byte.of_N (Z.to_N (n / 256)), Byte.of_N (Z.to_N (n mod 256)) with
  | Some hi, Some lo => [hi; lo]
  | _, _ => []
  end.

Definition size_codec_decode (bytes : list Byte.byte) : result image :=
  match bytes with
  | [a; b; c; d] =>
      Ok (new (Z.of_N (Byte.to_N a) * 256 + Z.of_N (Byte.to_N b))
              (Z.of_N (Byte.to_N c) * 256 + Z.of_N (Byte.to_N d))
              (Rgba 0 0 0 255))
  | _ => Raised "UnidentifiedImageError"
  end.

Definition size_codec : ProcessIcon.env :=
  ProcessIcon.mk_env size_codec_decode
    (fun img => size_bytes (width img) ++ size_bytes (height img))
    Samples.nearest (fun _ => true).

(** The same machine with a read-only splash file. *)
Definition locked_splash : ProcessIcon.env :=
  ProcessIcon.mk_env size_codec_decode
    (fun img => size_bytes (width img) ++ size_bytes (height img))
    Samples.nearest
    (fun path => negb (String.eqb path (ProcessIcon.asset_path "splash-icon.png"))).

(** A disk holding a 2000 by 1000 source and an unrelated file. *)
Definition photo_disk : ProcessIcon.world :=
  ProcessIcon.mk_world
    (<[ ProcessIcon.SOURCE := size_bytes 2000 ++ size_bytes 1000 ]>
       {[ "/etc/hosts"%string := [Byte.x31] ]}) [].

End MoreSamples.

(** * Properties *)

Import PyFloat PIL.

(** ** Floats of the scripts *)

Example lit_0_3_bits : lit_0_3 = S754_finite false 5404319552844595 (-54).
Proof. reflexivity. Qed.

Example lit_0_6_bits : lit_0_6 = S754_finite false 5404319552844595 (-53).
Proof. reflexivity. Qed.

Example lit_0_4_bits : lit_0_4 = S754_finite false 7205759403792794 (-54).
Proof. reflexivity. Qed.

Example to_int_truncates :
  (to_int (int_truediv 7 2), to_int (fsub (of_int 0) (int_truediv 7 2)))
  = (3, -3).
Proof. reflexivity. Qed.

(** ** Folding drawing primitives over a list *)

Section PaintFold.
Context {A B : Type}.
Variable covers : B -> Z -> Z -> bool.
Variable fill : B -> A.

Local Abbreviation paint_step := (paint_step covers fill).
Local Abbreviation last_cover := (last_cover covers).

Lemma last_cover_snoc shapes b x y :
  last_cover (shapes ++ [b]) x y =
  if covers b x y then Some b else last_cover shapes x y.
Proof. unfold last_cover. now rewrite fold_left_app. Qed.

Lemma fold_paint_size shapes im :
  width (fold_left paint_step shapes im) = width im
  /\ height (fold_left paint_step shapes im) = height im.
Proof.
  revert im. induction shapes as [|b shapes IH]; intros im; simpl; [easy|].
  destruct (IH (paint_step im b)) as [Hw Hh]. now rewrite Hw, Hh.
Qed.

Lemma fold_paint_px shapes im x y :
  in_bounds im x y = true ->
  px (fold_left paint_step shapes im) x y =
  match last_cover shapes x y with
  | Some b => fill b
  | None => px im x y
  end.
Proof.
  intros Hin. induction shapes as [|b shapes IH] using rev_ind; [easy|].
  rewrite fold_left_app, last_cover_snoc. simpl.
  destruct (fold_paint_size shapes im) as [Hw Hh].
  set (acc := fold_left paint_step shapes im) in *.
  assert (Hacc : in_bounds acc x y = true)
    by (unfold in_bounds in *; now rewrite Hw, Hh).
  unfold paint_step, paint. simpl. rewrite Hacc, andb_true_r.
  now destruct (covers b x y).
Qed.

Lemma last_cover_Some shapes x y b :
  last_cover shapes x y = Some b ->
  exists l1 l2, shapes = l1 ++ b :: l2 /\ covers b x y = true
                /\ Forall (fun c => covers c x y = false) l2.
Proof.
  revert b. induction shapes as [|c shapes IH] using rev_ind; intros b; [easy|].
  rewrite last_cover_snoc. destruct (covers c x y) eqn:Hc.
  - intros [= <-]. exists shapes, []. auto.
  - intros H. destruct (IH _ H) as (l1 & l2 & -> & Hb & Hl2).
    exists l1, (l2 ++ [c]). rewrite <- app_assoc. simpl.
    repeat split; auto. apply Forall_app. auto.
Qed.

Lemma last_cover_None shapes x y :
  last_cover shapes x y = None ->
  Forall (fun c => covers c x y = false) shapes.
Proof.
  induction shapes as [|c shapes IH] using rev_ind; [constructor|].
  rewrite last_cover_snoc. destruct (covers c x y) eqn:Hc; [easy|].
  intros H. apply Forall_app. auto.
Qed.

End PaintFold.

(** ** Ranges *)

Lemma range_up_In (n y : Z) : 0 <= y < n -> In y (py_range 0 n 1).
Proof.
  intros Hy. unfold py_range, range_len. simpl.
  rewrite Z.div_1_r, Z.max_r by lia.
  apply in_map_iff. exists (Z.to_nat y). split; [lia|].
  apply in_seq. lia.
Qed.

(** ** The gradient *)

Module GradientFacts.
Import GenerateIcon.

Lemma blank_bounds x y :
  in_bounds blank x y = true <-> 0 <= x < SIZE /\ 0 <= y < SIZE.
Proof. unfold in_bounds, blank, new. simpl. lia. Qed.

(** On each of the 1024 rows the float computation of the script and the
    exact rational formula give the same colour. *)
Lemma float_rows_agree :
  forallb (fun y => rgb_eqb (gradient_color y) (Formula.row_color y))
          (py_range 0 SIZE 1) = true.
Proof. vm_compute. reflexivity. Qed.

(** Where the float comparisons switch segment: rows 0 to 307, 308 to 614,
    and the rest. *)
Lemma segment_rows :
  forallb (fun y => Bool.eqb (fltb (int_truediv y SIZE) lit_0_3) (y <=? 307)
                    && Bool.eqb (fltb (int_truediv y SIZE) lit_0_6) (y <=? 614))
          (py_range 0 SIZE 1) = true.
Proof. vm_compute. reflexivity. Qed.

Lemma rgb_eqb_eq c d : rgb_eqb c d = true -> c = d.
Proof.
  destruct c as [[r1 g1] b1], d as [[r2 g2] b2]. unfold rgb_eqb.
  intros H. repeat f_equal; lia.
Qed.

Lemma gradient_color_formula y :
  0 <= y < SIZE -> gradient_color y = Formula.row_color y.
Proof.
  intros Hy. apply rgb_eqb_eq.
  pose proof float_rows_agree as H. rewrite forallb_forall in H.
  apply (H y). now apply range_up_In.
Qed.

Lemma gradient_px x y :
  0 <= x < SIZE -> 0 <= y < SIZE ->
  px gradient_canvas x y = opaque (gradient_color y).
Proof.
  intros Hx Hy. unfold gradient_canvas, draw_gradient.
  change (fold_left gradient_step) with
    (fold_left (paint_step (on_hline 0 (SIZE - 1))
                           (fun y => opaque (gradient_color y)))).
  rewrite fold_paint_px by (apply blank_bounds; auto).
  destruct (last_cover _ _ x y) as [y'|] eqn:Hl.
  - apply last_cover_Some in Hl. destruct Hl as (_ & _ & _ & Hc & _).
    unfold on_hline in Hc. f_equal. f_equal. lia.
  - apply last_cover_None in Hl. rewrite List.Forall_forall in Hl.
    specialize (Hl y (range_up_In _ _ Hy)). unfold on_hline, SIZE in *. lia.
Qed.

Lemma gradient_size : width gradient_canvas = SIZE /\ height gradient_canvas = SIZE.
Proof. apply (fold_paint_size (on_hline 0 (SIZE - 1))). Qed.

End GradientFacts.

(** C1. Every pixel of row [y] of the gradient canvas, for [0 <= y < 1024],
    has the colour of the piecewise interpolation formula evaluated in exact
    arithmetic at [t = y/1024] (segments [t < 0.3], [0.3 <= t < 0.6] and the
    rest, each channel [a + (b - a) * f] truncated to an integer), and alpha
    255. *)
Theorem gradient_rows_follow_formula (x y : Z) :
  0 <= y < GenerateIcon.SIZE -> 0 <= x < GenerateIcon.SIZE ->
  getpixel GenerateIcon.gradient_canvas x y =
  Some (let '(r, g, b) := GenerateIcon.Formula.row_color y in Rgba r g b 255).
Proof.
  intros Hy Hx. unfold getpixel.
  destruct GradientFacts.gradient_size as [Hw Hh].
  replace (in_bounds GenerateIcon.gradient_canvas x y) with true
    by (unfold in_bounds; rewrite Hw, Hh; unfold GenerateIcon.SIZE in *; lia).
  rewrite GradientFacts.gradient_px by assumption.
  now rewrite GradientFacts.gradient_color_formula.
Qed.

Lemma gradient_rows_follow_formula_witness :
  getpixel GenerateIcon.gradient_canvas 17 384 = Some (Rgba 226 153 83 255).
Proof.
  apply (gradient_rows_follow_formula 17 384); unfold GenerateIcon.SIZE; lia.
Defined.

(** ** The crop-and-resize pipeline *)

Module CropFacts.
Import ProcessIcon.

Lemma crop_square_size (img : image) :
  width (crop_square_center img) = Z.min (width img) (height img)
  /\ height (crop_square_center img) = Z.min (width img) (height img).
Proof. unfold crop_square_center, crop_box, crop. simpl. lia. Qed.

Lemma crop_square_px (img : image) (i j : Z) :
  let s := Z.min (width img) (height img) in
  0 <= i < s -> 0 <= j < s ->
  px (crop_square_center img) i j =
  px img ((width img - s) / 2 + i) ((height img - s) / 2 + j).
Proof.
  intros s Hi Hj. unfold crop_square_center, crop_box, crop. simpl.
  fold s.
  assert (H0 : 0 <= (width img - s) / 2 /\ (width img - s) / 2 + s <= width img).
  { split; [apply Z.div_pos; lia|].
    assert ((width img - s) / 2 <= width img - s)
      by (apply Z.div_le_upper_bound; lia). lia. }
  assert (H1 : 0 <= (height img - s) / 2 /\ (height img - s) / 2 + s <= height img).
  { split; [apply Z.div_pos; lia|].
    assert ((height img - s) / 2 <= height img - s)
      by (apply Z.div_le_upper_bound; lia). lia. }
  replace (in_bounds img _ _) with true; [reflexivity|].
  symmetry. unfold in_bounds. lia.
Qed.

End CropFacts.

(** C2. For a source image of width [w >= 1] and height [h >= 1],
    [crop_square_center] returns the square of side [s = min w h] whose
    top-left corner is the source pixel [(floor((w-s)/2), floor((h-s)/2))];
    for a 2000 by 1000 source the box is the 1000 by 1000 square at
    x-offset 500, y-offset 0. *)
Theorem crop_square_center_is_centered_square (img : image) :
  1 <= width img -> 1 <= height img ->
  let w := width img in
  let h := height img in
  let s := Z.min w h in
  width (ProcessIcon.crop_square_center img) = s
  /\ height (ProcessIcon.crop_square_center img) = s
  /\ (forall i j, 0 <= i < s -> 0 <= j < s ->
        getpixel (ProcessIcon.crop_square_center img) i j
        = getpixel img ((w - s) / 2 + i) ((h - s) / 2 + j)
        /\ getpixel (ProcessIcon.crop_square_center img) i j
           = Some (px img ((w - s) / 2 + i) ((h - s) / 2 + j)))
  /\ (w = 2000 -> h = 1000 ->
        ProcessIcon.crop_box w h = (500, 0, 1500, 1000)
        /\ s = 1000 /\ (w - s) / 2 = 500 /\ (h - s) / 2 = 0).
Proof.
  intros Hw Hh w h s.
  destruct (CropFacts.crop_square_size img) as [Ew Eh].
  split; [exact Ew|]. split; [exact Eh|]. split.
  - intros i j Hi Hj.
    assert (Hpx := CropFacts.crop_square_px img i j Hi Hj).
    assert (Hin : in_bounds (ProcessIcon.crop_square_center img) i j = true)
      by (unfold in_bounds; rewrite Ew, Eh; fold w h s; lia).
    assert (Hsrc : in_bounds img ((w - s) / 2 + i) ((h - s) / 2 + j) = true).
    { assert (0 <= (w - s) / 2 /\ (w - s) / 2 <= w - s)
        by (split; [apply Z.div_pos|apply Z.div_le_upper_bound]; lia).
      assert (0 <= (h - s) / 2 /\ (h - s) / 2 <= h - s)
        by (split; [apply Z.div_pos|apply Z.div_le_upper_bound]; lia).
      unfold in_bounds. fold w h. lia. }
    unfold getpixel. rewrite Hin, Hsrc. fold w h s in Hpx. now rewrite Hpx.
  - intros -> ->. subst s. unfold ProcessIcon.crop_box. now vm_compute.
Qed.

Lemma crop_square_center_is_centered_square_witness :
  width (ProcessIcon.crop_square_center (Samples.checker 2000 1000)) = 1000
  /\ getpixel (ProcessIcon.crop_square_center (Samples.checker 2000 1000)) 3 7
     = Some (Rgba 247 7 254 255).
Proof.
  assert (H := crop_square_center_is_centered_square (Samples.checker 2000 1000)).
  simpl in H. destruct H as (Hw & _ & Hpx & _); [lia | lia |].
  split; [exact Hw|]. destruct (Hpx 3 7) as [_ Hp]; [lia | lia |]. exact Hp.
Defined.

(** C6. On a square image of side 1024 the pipeline changes nothing: the
    crop box is the whole image (offsets 0, side 1024), the cropped image has
    the pixels of the input, and so has the icon obtained by resizing it to
    1024 by 1024. *)
Theorem square_target_image_passes_unchanged
    (E : ProcessIcon.env) (img : image) :
  width img = ProcessIcon.TARGET_SIZE ->
  height img = ProcessIcon.TARGET_SIZE ->
  ProcessIcon.crop_box (width img) (height img)
  = (0, 0, ProcessIcon.TARGET_SIZE, ProcessIcon.TARGET_SIZE)
  /\ (forall x y,
        getpixel (ProcessIcon.crop_square_center img) x y = getpixel img x y)
  /\ (forall x y,
        getpixel
          (ProcessIcon.resize E (ProcessIcon.crop_square_center img)
             ProcessIcon.TARGET_SIZE ProcessIcon.TARGET_SIZE) x y
        = getpixel img x y).
Proof.
  intros Hw Hh.
  assert (Hbox : ProcessIcon.crop_box (width img) (height img)
                 = (0, 0, ProcessIcon.TARGET_SIZE, ProcessIcon.TARGET_SIZE))
    by (rewrite Hw, Hh; reflexivity).
  assert (Hcrop : forall x y,
            getpixel (ProcessIcon.crop_square_center img) x y = getpixel img x y).
  { intros x y. unfold ProcessIcon.crop_square_center. rewrite Hbox.
    unfold getpixel, crop, in_bounds. simpl. rewrite Hw, Hh.
    rewrite !Z.sub_0_r, !Z.add_0_l.
    destruct ((0 <=? x) && (x <? ProcessIcon.TARGET_SIZE) && (0 <=? y)
              && (y <? ProcessIcon.TARGET_SIZE)); reflexivity. }
  split; [exact Hbox|]. split; [exact Hcrop|].
  intros x y. unfold ProcessIcon.resize.
  destruct (CropFacts.crop_square_size img) as [Ew Eh].
  rewrite Ew, Eh, Hw, Hh. simpl. apply Hcrop.
Qed.

Lemma square_target_image_passes_unchanged_witness :
  getpixel
    (ProcessIcon.resize Samples.no_codec
       (ProcessIcon.crop_square_center (Samples.checker 1024 1024)) 1024 1024)
    1000 20
  = Some (Rgba 232 20 252 255).
Proof.
  destruct (square_target_image_passes_unchanged Samples.no_codec
              (Samples.checker 1024 1024)) as (_ & _ & H);
    [reflexivity | reflexivity |].
  exact (H 1000 20).
Defined.

(** ** Loading the source *)

Module IoFacts.
Import ProcessIcon.

Lemma bind_ok {A B} (m : io A) (k : A -> io B) (w w' : world) (a : A) :
  m w = (Ok a, w') -> (m ≫= k) w = k a w'.
Proof. intros H. unfold mbind, io_bind. now rewrite H. Qed.

Lemma bind_raised {A B} (m : io A) (k : A -> io B) (w w' : world) (e : string) :
  m w = (Raised e, w') -> (m ≫= k) w = (Raised e, w').
Proof. intros H. unfold mbind, io_bind. now rewrite H. Qed.

End IoFacts.

(** C8. When the source path does not exist, or its bytes do not decode, the
    run of the post-processor ends with the raised error and the files on
    disk are those it started with: none of [icon.png], [adaptive-icon.png],
    [splash-icon.png], [favicon.png] is written. *)
Theorem failed_load_writes_nothing (E : ProcessIcon.env) (w : ProcessIcon.world) :
  (ProcessIcon.files w !! ProcessIcon.SOURCE = None
   \/ exists bytes e,
        ProcessIcon.files w !! ProcessIcon.SOURCE = Some bytes
        /\ ProcessIcon.decode E bytes = Raised e) ->
  (exists e, fst (ProcessIcon.main E w) = Raised e)
  /\ ProcessIcon.files (snd (ProcessIcon.main E w)) = ProcessIcon.files w
  /\ (forall name, In name ProcessIcon.asset_names ->
        ProcessIcon.files (snd (ProcessIcon.main E w))
          !! ProcessIcon.asset_path name
        = ProcessIcon.files w !! ProcessIcon.asset_path name).
Proof.
  intros H.
  assert (Hmain :
    (exists e, fst (ProcessIcon.main E w) = Raised e)
    /\ ProcessIcon.files (snd (ProcessIcon.main E w)) = ProcessIcon.files w).
  { set (w1 := ProcessIcon.mk_world (ProcessIcon.files w)
                 (ProcessIcon.stdout w
                  ++ [("Loading source: " +:+ ProcessIcon.SOURCE)%string])).
    assert (Hopen : exists e,
              ProcessIcon.open_rgba E ProcessIcon.SOURCE w1 = (Raised e, w1)).
    { unfold ProcessIcon.open_rgba. simpl.
      destruct H as [H | (bytes & e & H & Hd)]; rewrite H.
      - now eexists.
      - rewrite Hd. now eexists. }
    destruct Hopen as [e Hopen].
    unfold ProcessIcon.main.
    erewrite IoFacts.bind_ok by reflexivity.
    erewrite IoFacts.bind_raised by exact Hopen.
    split; [now exists e | reflexivity]. }
  destruct Hmain as [He Hf]. split; [exact He|]. split; [exact Hf|].
  intros name _. now rewrite Hf.
Qed.

Lemma failed_load_writes_nothing_witness :
  (exists e, fst (ProcessIcon.main Samples.no_codec Samples.junk_disk) = Raised e)
  /\ ProcessIcon.files (snd (ProcessIcon.main Samples.no_codec Samples.junk_disk))
     = ProcessIcon.files Samples.junk_disk.
Proof.
  destruct (failed_load_writes_nothing Samples.no_codec Samples.junk_disk)
    as (He & Hf & _).
  - right. exists [Byte.x00; Byte.x01; Byte.x02], "UnidentifiedImageError"%string.
    split; reflexivity.
  - split; assumption.
Defined.

(** ** The glow layer *)

Module GlowFacts.
Import GenerateIcon Vocabulary.

Lemma glow_radii_eq :
  glow_radii = map (fun i => 512 - 2 * Z.of_nat i) (seq 0 256).
Proof.
  unfold glow_radii, py_range.
  change (Z.to_nat (range_len max_radius 0 (-2))) with 256%nat.
  apply map_ext. intros i. change max_radius with 512. lia.
Qed.

Lemma glow_radii_In (r : Z) :
  In r glow_radii <-> 2 <= r <= max_radius /\ Z.even r = true.
Proof.
  rewrite glow_radii_eq, in_map_iff. change max_radius with 512. split.
  - intros (i & <- & Hi). apply in_seq in Hi. split; [lia|].
    replace (512 - 2 * Z.of_nat i) with (2 * (256 - Z.of_nat i)) by lia.
    now rewrite Z.even_mul.
  - intros [Hr He]. apply Z.even_spec in He. destruct He as [k ->].
    exists (Z.to_nat (256 - k)). split; [lia|]. apply in_seq. lia.
Qed.

(** On every drawn radius the float computation is exact. *)
Lemma glow_alpha_table :
  forallb (fun r => (glow_alpha r =? formula_glow_alpha r)
                    && (glow_alpha r =? 40 * (512 - r) ^ 2 / 262144))
          glow_radii = true.
Proof. vm_compute. reflexivity. Qed.

Lemma glow_alpha_formula (r : Z) :
  In r glow_radii ->
  glow_alpha r = formula_glow_alpha r
  /\ glow_alpha r = 40 * (512 - r) ^ 2 / 262144.
Proof.
  intros Hr. pose proof glow_alpha_table as H.
  rewrite forallb_forall in H. specialize (H r Hr). lia.
Qed.

Lemma glow_alpha_nonneg (r : Z) : In r glow_radii -> 0 <= glow_alpha r.
Proof.
  intros Hr. destruct (glow_alpha_formula r Hr) as [_ ->].
  apply Z.div_pos; nia.
Qed.


(** The alpha the loop leaves at a pixel: that of the last circle covering
    it, or the layer's initial 0. *)
Lemma glow_alpha_at_last (radii : list Z) (x y : Z) :
  in_bounds blank x y = true ->
  glow_alpha_at radii x y =
  match last_cover circle_covers radii x y with
  | Some r => glow_alpha r
  | None => 0
  end.
Proof.
  intros Hin. unfold glow_alpha_at, draw_glow.
  change (fold_left glow_step) with
    (fold_left (paint_step circle_covers glow_fill)).
  rewrite fold_paint_px by assumption.
  now destruct (last_cover circle_covers radii x y).
Qed.


Lemma descending_from (s n : nat) :
  StronglySorted Z.gt (map (fun i => 512 - 2 * Z.of_nat i) (seq s n)).
Proof.
  revert s. induction n as [|n IH]; intros s; simpl; constructor.
  - apply IH.
  - apply List.Forall_forall. intros r Hr. apply in_map_iff in Hr.
    destruct Hr as (i & <- & Hi). apply in_seq in Hi. lia.
Qed.

Lemma glow_radii_descending : StronglySorted Z.gt glow_radii.
Proof. rewrite glow_radii_eq. apply descending_from. Qed.



(** *** The rasterised circles against the ideal ones *)















End GlowFacts.

(** C3, as stated, asks for radius 1 among the drawn radii; the loop
    [range(max_radius, 0, -2)] starts from the even 512 and never reaches it. *)
Lemma radius_one_is_not_drawn :
  ~ In 1 GenerateIcon.glow_radii.
Proof.
  intros H. apply GlowFacts.glow_radii_In in H. destruct H as [H _]. lia.
Qed.

(** C3 (amended). The glow layer is built by filling concentric circles
    centred at [(S//2, S//3) = (512, 341)], one for every even radius from
    [R = S//2 = 512] down to 2, largest first; the circle of radius [r] is
    filled with white at alpha [floor(40 (1 - r/R)^2)].  The smallest radius
    drawn is 2. *)
Theorem glow_circles_as_drawn :
  (GenerateIcon.center_x, GenerateIcon.center_y, GenerateIcon.max_radius)
  = (GenerateIcon.SIZE / 2, GenerateIcon.SIZE / 3, GenerateIcon.SIZE / 2)
  /\ GenerateIcon.glow_layer
     = fold_left
         (fun glow r =>
            ellipse glow (512 - r) (341 - r) (512 + r) (341 + r)
              (Rgba 255 255 255 (GenerateIcon.glow_alpha r)))
         GenerateIcon.glow_radii GenerateIcon.blank
  /\ (forall r, In r GenerateIcon.glow_radii
                <-> 2 <= r <= GenerateIcon.max_radius /\ Z.even r = true)
  /\ StronglySorted Z.gt GenerateIcon.glow_radii
  /\ List.hd 0 GenerateIcon.glow_radii = GenerateIcon.max_radius
  /\ List.last GenerateIcon.glow_radii 0 = 2
  /\ (forall r, In r GenerateIcon.glow_radii ->
        GenerateIcon.glow_fill r
        = Rgba 255 255 255 (GenerateIcon.formula_glow_alpha r)).
Proof.
  split; [reflexivity|]. split; [reflexivity|].
  split; [exact GlowFacts.glow_radii_In|].
  split; [exact GlowFacts.glow_radii_descending|].
  split; [reflexivity|]. split; [now vm_compute|].
  intros r Hr. unfold GenerateIcon.glow_fill.
  now destruct (GlowFacts.glow_alpha_formula r Hr) as [-> _].
Qed.

Lemma glow_circles_as_drawn_witness :
  In 2 GenerateIcon.glow_radii
  /\ GenerateIcon.glow_fill 2 = Rgba 255 255 255 39
  /\ GenerateIcon.glow_fill 512 = Rgba 255 255 255 0.
Proof.
  destruct glow_circles_as_drawn as (_ & _ & Hin & _ & _ & _ & Hfill).
  assert (H2 : In 2 GenerateIcon.glow_radii)
    by (apply Hin; split; [|reflexivity]; vm_compute; split; discriminate).
  assert (H512 : In 512 GenerateIcon.glow_radii)
    by (apply Hin; split; [|reflexivity]; vm_compute; split; discriminate).
  split; [exact H2|]. split; [exact (Hfill 2 H2) | exact (Hfill 512 H512)].
Defined.


(** The glow also depends on the order in which the circles are drawn: drawn
    smallest first, the same circles leave alpha 0 at the centre, where the
    script's order leaves 39. *)
Lemma glow_depends_on_draw_order :
  ~ (forall radii,
       Permutation radii GenerateIcon.glow_radii ->
       forall x y, in_bounds GenerateIcon.blank x y = true ->
         GenerateIcon.glow_alpha_at radii x y
         = GenerateIcon.glow_alpha_at GenerateIcon.glow_radii x y).
Proof.
  intros H.
  specialize (H (rev GenerateIcon.glow_radii)
                (Permutation_sym (Permutation_rev _)) 512 341 eq_refl).
  vm_compute in H. discriminate.
Qed.



(** ** Font resolution and the finished canvas *)

Module FontFacts.
Import GenerateIcon.

Lemma font_loop_total (E : env) (paths : list string) :
  exists found, font_loop E paths = Ok found.
Proof.
  induction paths as [|fp rest [found IH]]; simpl; [now eexists|].
  rewrite IH. destruct (path_exists E fp); [|now eexists].
  destruct (truetype E fp font_size); simpl; now eexists.
Qed.

Lemma font_loop_skips (E : env) (pre rest : list string) :
  (forall p, In p pre -> unusable E p) ->
  font_loop E (pre ++ rest) = font_loop E rest.
Proof.
  induction pre as [|fp pre IH]; intros Hpre; [reflexivity|]. simpl.
  rewrite IH by (intros p Hp; apply Hpre; now right).
  destruct (Hpre fp (or_introl eq_refl)) as [-> | [e He]]; [reflexivity|].
  rewrite He. now destruct (path_exists E fp).
Qed.

Lemma font_loop_first (E : env) (pre post : list string) (fp : string) (f : font) :
  (forall p, In p pre -> unusable E p) ->
  path_exists E fp = true -> truetype E fp font_size = Ok f ->
  font_loop E (pre ++ fp :: post) = Ok (Some (fp, f)).
Proof.
  intros Hpre Hex Hload. rewrite font_loop_skips by assumption.
  simpl. now rewrite Hex, Hload.
Qed.

Lemma font_loop_none (E : env) (paths : list string) :
  (forall p, In p paths -> unusable E p) -> font_loop E paths = Ok None.
Proof.
  intros H. rewrite <- (app_nil_r paths). now rewrite font_loop_skips.
Qed.

Lemma resolve_font_total (E : env) :
  exists f line, resolve_font E = Ok (f, line).
Proof.
  unfold resolve_font. destruct (font_loop_total E font_paths) as [found ->].
  simpl. destruct found as [[fp f]|]; now do 2 eexists.
Qed.

Lemma create_icon_of_font (E : env) (f : font) (line : string) :
  resolve_font E = Ok (f, line) -> create_icon E = Ok (finished f, line).
Proof. intros H. unfold create_icon. now rewrite H. Qed.

Lemma create_icon_inv (E : env) (img : image) (line : string) :
  create_icon E = Ok (img, line) ->
  exists f, resolve_font E = Ok (f, line) /\ img = finished f.
Proof.
  unfold create_icon. destruct (resolve_font E) as [[f l]|e]; simpl; [|easy].
  intros [= <- <-]. now exists f.
Qed.

Lemma create_icon_total (E : env) : exists r, create_icon E = Ok r.
Proof.
  destruct (resolve_font_total E) as (f & line & H).
  exists (finished f, line). now apply create_icon_of_font.
Qed.

Lemma lettered_size (f : font) :
  width (lettered f) = SIZE /\ height (lettered f) = SIZE.
Proof.
  unfold lettered, draw_letter. destruct (letter_position f) as [x y].
  unfold draw_text, masked_glow, glowing, masked_gradient, putalpha,
    alpha_composite.
  cbn [width height]. apply GradientFacts.gradient_size.
Qed.

Lemma finished_bounds (f : font) (x y : Z) :
  in_bounds (finished f) x y = true <-> 0 <= x < SIZE /\ 0 <= y < SIZE.
Proof.
  destruct (lettered_size f) as [Hw Hh].
  unfold in_bounds, finished, putalpha. cbn [width height].
  rewrite Hw, Hh. lia.
Qed.

Lemma lettered_bounds (f : font) (x y : Z) :
  0 <= x < SIZE -> 0 <= y < SIZE -> in_bounds masked_glow x y = true.
Proof.
  intros Hx Hy.
  unfold in_bounds, masked_glow, glowing, masked_gradient, putalpha,
    alpha_composite.
  cbn [width height]. destruct GradientFacts.gradient_size as [-> ->]. lia.
Qed.

Lemma icon_mask_px (x y : Z) :
  0 <= x < SIZE -> 0 <= y < SIZE ->
  px icon_mask x y =
  if in_rounded_rect 0 0 (SIZE - 1) (SIZE - 1) corner_radius x y
  then 255 else 0.
Proof.
  intros Hx Hy. unfold icon_mask, rounded_rectangle, paint, new, in_bounds.
  cbn [px width height].
  replace ((0 <=? x) && (x <? SIZE) && (0 <=? y) && (y <? SIZE))
    with true by (symmetry; lia).
  now rewrite andb_true_r.
Qed.

Lemma icon_mask_values (x y : Z) :
  0 <= x < SIZE -> 0 <= y < SIZE ->
  px icon_mask x y = 0 \/ px icon_mask x y = 255.
Proof.
  intros Hx Hy. rewrite icon_mask_px by assumption.
  destruct (in_rounded_rect _ _ _ _ _ _ _); auto.
Qed.

(** The three rectangles of the rounded rectangle. *)
Lemma in_rounded_rect_cross (x0 y0 x1 y1 radius x y : Z) :
  in_rectangle (x0 + radius * 2 / 2 + 1) y0 (x1 - radius * 2 / 2 - 1) y1 x y
  = true
  \/ in_rectangle x0 (y0 + radius * 2 / 2 + 1) (x0 + radius * 2 / 2)
       (y1 - radius * 2 / 2 - 1) x y = true
  \/ in_rectangle (x1 - radius * 2 / 2) (y0 + radius * 2 / 2 + 1) x1
       (y1 - radius * 2 / 2 - 1) x y = true ->
  in_rounded_rect x0 y0 x1 y1 radius x y = true.
Proof.
  unfold in_rounded_rect. cbv zeta.
  intros [-> | [-> | ->]]; rewrite ?orb_true_r; reflexivity.
Qed.

Lemma icon_mask_cross (x y : Z) :
  0 <= x < SIZE -> 0 <= y < SIZE ->
  225 <= x <= 798 \/ 225 <= y <= 798 ->
  px icon_mask x y = 255.
Proof.
  intros Hx Hy Hc. rewrite icon_mask_px by assumption.
  rewrite in_rounded_rect_cross; [reflexivity|].
  change (corner_radius * 2 / 2) with 224. change SIZE with 1024 in *.
  unfold in_rectangle.
  destruct Hc as [Hc | Hc];
    [left; lia
    | destruct (Z_le_gt_dec x 224);
      [right; left; lia
      | destruct (Z_le_gt_dec x 798); [left; lia | right; right; lia]]].
Qed.

(** At full coverage the ink replaces the pixel. *)
Lemma ink_pixel_full (p ink : rgba) :
  (forall c, In c [red ink; green ink; blue ink; alpha ink] ->
             muldiv255 c 255 = c) ->
  ink_pixel 255 p ink = ink.
Proof.
  intros Hink. unfold ink_pixel, blend.
  replace (if negb (255 =? 0) && (alpha p =? 0) then 255 else 255)
    with 255 by now destruct (alpha p =? 0).
  change (255 - 255) with 0. unfold muldiv255 at 1 3 5 7.
  rewrite !Z.mul_0_r. change (shift_for_div255 (0 + 128)) with 0.
  rewrite !Z.add_0_l.
  rewrite !Hink by (simpl; tauto). now destruct ink.
Qed.

Lemma clamp_high (v : Z) : 255 <= v -> clamp 0 255 v = 255.
Proof. unfold clamp. lia. Qed.

(** The canvas under the letter, pixel by pixel. *)
Lemma lettered_px (f : font) (x y : Z) :
  0 <= x < SIZE -> 0 <= y < SIZE ->
  px (lettered f) x y
  = ink_pixel (clamp 0 255 (coverage f letter (letter_position f) x y))
      (ink_pixel
         (clamp 0 255
            (coverage f letter
               (fadd (fst (letter_position f)) (of_int shadow_offset),
                fadd (snd (letter_position f)) (of_int shadow_offset)) x y))
         (px masked_glow x y) shadow_fill)
      letter_fill.
Proof.
  intros Hx Hy. pose proof (lettered_bounds f x y Hx Hy) as Hb.
  unfold lettered, draw_letter. destruct (letter_position f) as [lx ly].
  cbn [fst snd]. unfold draw_text at 1. cbn [px].
  replace (in_bounds (draw_text masked_glow _ letter shadow_fill f) x y)
    with true by (symmetry; exact Hb).
  unfold draw_text. cbn [px]. now rewrite Hb.
Qed.

Lemma letter_pixel (f : font) (x y : Z) :
  0 <= x < SIZE -> 0 <= y < SIZE ->
  255 <= coverage f letter (letter_position f) x y ->
  px (finished f) x y = Rgba 255 255 255 (px icon_mask x y).
Proof.
  intros Hx Hy Hc. unfold finished, putalpha. cbn [px].
  rewrite lettered_px by assumption. rewrite clamp_high by assumption.
  rewrite ink_pixel_full; [reflexivity|].
  intros c [<- | [<- | [<- | [<- | []]]]]; reflexivity.
Qed.

End FontFacts.

(** C9. Font resolution cannot abort the run: [create_icon] always returns a
    canvas.  The font is that of the first candidate of the ordered list that
    exists and loads; candidates that are missing or whose loading raises are
    passed over; when no candidate resolves the built-in default font is
    used.  In every case the letter is drawn with the chosen font: wherever
    the glyph of the chosen font, at the letter's position, covers a pixel
    fully, the returned canvas is white there. *)
Theorem font_resolution_never_aborts (E : GenerateIcon.env) :
  (exists f line,
     GenerateIcon.resolve_font E = Ok (f, line)
     /\ GenerateIcon.create_icon E
        = Ok (putalpha (GenerateIcon.draw_letter GenerateIcon.masked_glow f)
                GenerateIcon.icon_mask, line))
  /\ (forall pre fp post f,
        GenerateIcon.font_paths = pre ++ fp :: post ->
        (forall p, In p pre -> GenerateIcon.unusable E p) ->
        GenerateIcon.path_exists E fp = true ->
        GenerateIcon.truetype E fp GenerateIcon.font_size = Ok f ->
        GenerateIcon.resolve_font E = Ok (f, "Using font: " +:+ fp))
  /\ ((forall p, In p GenerateIcon.font_paths -> GenerateIcon.unusable E p) ->
      GenerateIcon.resolve_font E
      = Ok (GenerateIcon.load_default E, "Using default font"%string))
  /\ (forall f line,
        GenerateIcon.resolve_font E = Ok (f, line) ->
        exists img,
          GenerateIcon.create_icon E = Ok (img, line)
          /\ forall x y,
               0 <= x < GenerateIcon.SIZE -> 0 <= y < GenerateIcon.SIZE ->
               255 <= coverage f GenerateIcon.letter
                        (GenerateIcon.letter_position f) x y ->
               px img x y
               = Rgba 255 255 255 (px GenerateIcon.icon_mask x y)).
Proof.
  split; [|split; [|split]].
  - destruct (FontFacts.resolve_font_total E) as (f & line & H).
    exists f, line. split; [exact H|].
    now apply FontFacts.create_icon_of_font.
  - intros pre fp post f Hpaths Hpre Hex Hload.
    unfold GenerateIcon.resolve_font. rewrite Hpaths.
    now rewrite (FontFacts.font_loop_first E pre post fp f).
  - intros Hall. unfold GenerateIcon.resolve_font.
    now rewrite FontFacts.font_loop_none.
  - intros f line Hres. exists (GenerateIcon.finished f).
    split; [now apply FontFacts.create_icon_of_font|].
    intros x y Hx Hy Hc. now apply FontFacts.letter_pixel.
Qed.

Lemma font_resolution_never_aborts_witness :
  GenerateIcon.resolve_font Samples.damaged
  = Ok (Samples.serif, "Using font: " +:+ Samples.georgia)
  /\ GenerateIcon.resolve_font Samples.bare
     = Ok (Samples.builtin, "Using default font"%string)
  /\ (exists img,
        GenerateIcon.create_icon Samples.bare
        = Ok (img, "Using default font"%string)
        /\ px img 509 500 = Rgba 255 255 255 255
        /\ px img 400 500 <> Rgba 255 255 255 255)
  /\ (exists img,
        GenerateIcon.create_icon Samples.damaged
        = Ok (img, "Using font: " +:+ Samples.georgia)
        /\ px img 400 500 = Rgba 255 255 255 255).
Proof.
  assert (Hserif : GenerateIcon.resolve_font Samples.damaged
                   = Ok (Samples.serif, "Using font: " +:+ Samples.georgia)).
  { destruct (font_resolution_never_aborts Samples.damaged) as (_ & H & _).
    apply (H [Samples.georgia_bold] Samples.georgia
             (skipn 2 GenerateIcon.font_paths) Samples.serif);
      [reflexivity | | reflexivity | reflexivity].
    intros p [<- | []]. right. now exists "OSError"%string. }
  assert (Hbuiltin : GenerateIcon.resolve_font Samples.bare
                     = Ok (Samples.builtin, "Using default font"%string)).
  { destruct (font_resolution_never_aborts Samples.bare) as (_ & _ & H & _).
    apply H. intros p _. now left. }
  split; [exact Hserif|]. split; [exact Hbuiltin|]. split.
  - destruct (font_resolution_never_aborts Samples.bare) as (_ & _ & _ & H).
    destruct (H _ _ Hbuiltin) as (img & Hrun & Hpx). exists img.
    split; [exact Hrun|]. split.
    + rewrite (Hpx 509 500);
        [now vm_compute | now vm_compute | now vm_compute
         | vm_compute; discriminate].
    + injection Hrun as <-. vm_compute. discriminate.
  - destruct (font_resolution_never_aborts Samples.damaged) as (_ & _ & _ & H).
    destruct (H _ _ Hserif) as (img & Hrun & Hpx). exists img.
    split; [exact Hrun|].
    rewrite (Hpx 400 500);
      [now vm_compute | now vm_compute | now vm_compute
       | vm_compute; discriminate].
Defined.

(** The silhouette holds the centre of the canvas and none of its four
    corner pixels; on the top row it starts at column 210. *)
Example icon_mask_center_and_corners :
  map (fun '(x, y) => px GenerateIcon.icon_mask x y)
      [(512, 512); (0, 0); (1023, 0); (0, 1023); (1023, 1023);
       (209, 0); (210, 0)]
  = [255; 0; 0; 0; 0; 0; 255].
Proof. now vm_compute. Qed.

(** C10. In the icon returned by [create_icon] the alpha of every pixel is
    the value of the rounded-rectangle mask there, whatever alpha the letter
    (drawn with fill alpha 245) or its shadow (fill alpha 35) left at the
    pixel.  The mask holds 255 on the silhouette that Pillow rasterises for
    the rounded rectangle and 0 elsewhere, so the alpha is 255 where the mask
    is 255 and 0 where the mask is 0; the silhouette contains every pixel
    whose column or row lies between 225 and 798. *)
Theorem final_alpha_is_the_mask (E : GenerateIcon.env) :
  (exists r, GenerateIcon.create_icon E = Ok r)
  /\ (forall img line,
        GenerateIcon.create_icon E = Ok (img, line) ->
        forall x y, in_bounds img x y = true ->
          alpha (px img x y) = px GenerateIcon.icon_mask x y
          /\ (px GenerateIcon.icon_mask x y = 255
              \/ px GenerateIcon.icon_mask x y = 0)
          /\ (px GenerateIcon.icon_mask x y = 255 ->
              alpha (px img x y) = 255)
          /\ (px GenerateIcon.icon_mask x y = 0 ->
              alpha (px img x y) = 0)
          /\ (px GenerateIcon.icon_mask x y = 255
              <-> in_rounded_rect 0 0 1023 1023 224 x y = true)
          /\ (225 <= x <= 798 \/ 225 <= y <= 798 ->
              alpha (px img x y) = 255)).
Proof.
  split; [apply FontFacts.create_icon_total|].
  intros img line Hrun x y Hin.
  destruct (FontFacts.create_icon_inv E img line Hrun) as (f & _ & ->).
  apply FontFacts.finished_bounds in Hin. destruct Hin as [Hx Hy].
  assert (Hmask := FontFacts.icon_mask_px x y Hx Hy).
  change (GenerateIcon.SIZE - 1) with 1023 in Hmask.
  change GenerateIcon.corner_radius with 224 in Hmask.
  change (alpha (px (GenerateIcon.finished f) x y))
    with (px GenerateIcon.icon_mask x y).
  split; [reflexivity|].
  split; [destruct (FontFacts.icon_mask_values x y Hx Hy); auto|].
  split; [auto|]. split; [auto|]. split.
  - rewrite Hmask. destruct (in_rounded_rect 0 0 1023 1023 224 x y);
      split; congruence.
  - now apply FontFacts.icon_mask_cross.
Qed.

Lemma final_alpha_is_the_mask_witness :
  alpha (px (GenerateIcon.lettered Samples.serif) 400 500) = 245
  /\ alpha (px (GenerateIcon.lettered Samples.serif) 446 400) = 35
  /\ alpha (px (GenerateIcon.finished Samples.serif) 400 500) = 255
  /\ alpha (px (GenerateIcon.finished Samples.serif) 446 400) = 255
  /\ alpha (px (GenerateIcon.finished Samples.serif) 210 0) = 255
  /\ alpha (px (GenerateIcon.finished Samples.serif) 209 0) = 0
  /\ alpha (px (GenerateIcon.finished Samples.serif) 10 10) = 0.
Proof.
  destruct (final_alpha_is_the_mask Samples.mac) as [_ H].
  specialize (H (GenerateIcon.finished Samples.serif)
                ("Using font: " +:+ Samples.georgia_bold) eq_refl).
  split; [now vm_compute|]. split; [now vm_compute|].
  split; [|split; [|split; [|split]]].
  - destruct (H 400 500) as (_ & _ & _ & _ & _ & Hin); [now vm_compute|].
    apply Hin. lia.
  - destruct (H 446 400) as (_ & _ & _ & _ & _ & Hin); [now vm_compute|].
    apply Hin. lia.
  - destruct (H 210 0) as (_ & _ & Hin & _); [now vm_compute|].
    apply Hin. now vm_compute.
  - destruct (H 209 0) as (_ & _ & _ & Hout & _); [now vm_compute|].
    apply Hout. now vm_compute.
  - destruct (H 10 10) as (_ & _ & _ & Hout & _); [now vm_compute|].
    apply Hout. now vm_compute.
Defined.

(** ** Applying the mask *)

Module MaskFacts.
Import GenerateIcon.

Lemma shift_for_div255_nonneg (a : Z) : 0 <= a -> 0 <= shift_for_div255 a.
Proof.
  intros Ha. unfold shift_for_div255. apply Z.shiftr_nonneg.
  assert (0 <= Z.shiftr a 8) by now apply Z.shiftr_nonneg. lia.
Qed.

Lemma composite_keeps_opaque (dst src : rgba) :
  alpha dst = 255 -> alpha (composite_pixel dst src) = 255.
Proof.
  intros Hd. unfold composite_pixel.
  destruct (alpha src =? 0); [exact Hd|]. cbn [alpha]. rewrite Hd.
  replace (alpha src * 255 + 255 * (255 - alpha src) + 128) with 65153 by ring.
  reflexivity.
Qed.

Lemma composite_alpha_nonneg (dst src : rgba) :
  alpha dst = 0 -> 0 <= alpha src -> 0 <= alpha (composite_pixel dst src).
Proof.
  intros Hd Hs. unfold composite_pixel.
  destruct (alpha src =? 0); [lia|]. cbn [alpha]. rewrite Hd.
  apply shift_for_div255_nonneg. lia.
Qed.

Lemma glow_layer_alpha_nonneg (x y : Z) :
  in_bounds blank x y = true -> 0 <= alpha (px glow_layer x y).
Proof.
  intros Hin.
  change (alpha (px glow_layer x y)) with (glow_alpha_at glow_radii x y).
  rewrite GlowFacts.glow_alpha_at_last by assumption.
  destruct (last_cover circle_covers glow_radii x y) as [r|] eqn:Hl; [|lia].
  apply last_cover_Some in Hl. destruct Hl as (l1 & l2 & Heq & _).
  apply GlowFacts.glow_alpha_nonneg. rewrite Heq. apply in_elt.
Qed.

Lemma application_cases (f : font) (before after : image) :
  In (before, after) (mask_applications f) ->
  (before = gradient_canvas /\ after = masked_gradient)
  \/ (before = glowing /\ after = masked_glow)
  \/ (before = lettered f /\ after = finished f).
Proof.
  assert (Hpair : forall a b : image, (a, b) = (before, after) ->
                                      before = a /\ after = b)
    by (intros a b Heq; split; congruence).
  intros [Heq | [Heq | [Heq | []]]]; apply Hpair in Heq; auto.
Qed.

Lemma before_bounds (f : font) (before after : image) (x y : Z) :
  In (before, after) (mask_applications f) ->
  in_bounds before x y = true -> 0 <= x < SIZE /\ 0 <= y < SIZE.
Proof.
  intros Hin Hb.
  assert (Hsize : width before = SIZE /\ height before = SIZE).
  { destruct (application_cases f before after Hin)
      as [[-> _] | [[-> _] | [-> _]]].
    - apply GradientFacts.gradient_size.
    - unfold glowing, alpha_composite, masked_gradient, putalpha.
      cbn [width height]. apply GradientFacts.gradient_size.
    - apply FontFacts.lettered_size. }
  destruct Hsize as [Hw Hh]. unfold in_bounds in Hb. rewrite Hw, Hh in Hb. lia.
Qed.

End MaskFacts.

(** C5, as stated, makes every application of the mask a pixel-wise
    minimum.  On a machine whose first font draws the letter over the pixel
    (400, 500), which lies inside the silhouette (mask 255), the alpha there
    is 245 before the last application, and 255, not 245, after it. *)
Lemma last_mask_application_is_not_a_minimum :
  ~ (forall E f line,
       GenerateIcon.resolve_font E = Ok (f, line) ->
       forall before after,
         In (before, after) (GenerateIcon.mask_applications f) ->
         forall x y, in_bounds before x y = true ->
           alpha (px after x y)
           = Z.min (alpha (px before x y)) (px GenerateIcon.icon_mask x y)).
Proof.
  intros H.
  specialize (H Samples.mac Samples.serif _ eq_refl
                (GenerateIcon.lettered Samples.serif)
                (GenerateIcon.finished Samples.serif)).
  specialize (H (or_intror (or_intror (or_introl eq_refl))) 400 500 eq_refl).
  vm_compute in H. discriminate.
Qed.

(** C5 (amended). Every application of the rounded-rectangle mask in
    [create_icon] overwrites the alpha band: afterwards the alpha of each
    pixel is the mask value there.  This is the minimum of the previous alpha
    and the mask exactly where the previous alpha is not below the mask,
    which is the case at every pixel for the first two applications (after
    the gradient and after the glow). *)
Theorem mask_application_overwrites_alpha (f : font) :
  (forall before after,
     In (before, after) (GenerateIcon.mask_applications f) ->
     after = putalpha before GenerateIcon.icon_mask
     /\ forall x y, in_bounds before x y = true ->
          alpha (px after x y) = px GenerateIcon.icon_mask x y
          /\ (alpha (px after x y)
              = Z.min (alpha (px before x y)) (px GenerateIcon.icon_mask x y)
              <-> px GenerateIcon.icon_mask x y <= alpha (px before x y)))
  /\ (forall x y, in_bounds GenerateIcon.gradient_canvas x y = true ->
        alpha (px GenerateIcon.masked_gradient x y)
        = Z.min (alpha (px GenerateIcon.gradient_canvas x y))
                (px GenerateIcon.icon_mask x y))
  /\ (forall x y, in_bounds GenerateIcon.glowing x y = true ->
        alpha (px GenerateIcon.masked_glow x y)
        = Z.min (alpha (px GenerateIcon.glowing x y))
                (px GenerateIcon.icon_mask x y)).
Proof.
  split; [|split].
  - intros before after Hin.
    assert (Hafter : after = putalpha before GenerateIcon.icon_mask)
      by (destruct (MaskFacts.application_cases f before after Hin)
            as [[-> ->] | [[-> ->] | [-> ->]]]; reflexivity).
    split; [exact Hafter|]. intros x y _. subst after.
    change (alpha (px (putalpha before GenerateIcon.icon_mask) x y))
      with (px GenerateIcon.icon_mask x y).
    split; [reflexivity | lia].
  - intros x y Hin.
    destruct (MaskFacts.before_bounds f _ _ x y (or_introl eq_refl) Hin)
      as [Hx Hy].
    change (alpha (px GenerateIcon.masked_gradient x y))
      with (px GenerateIcon.icon_mask x y).
    rewrite GradientFacts.gradient_px by assumption.
    destruct (GenerateIcon.gradient_color y) as [[r g] b]. cbn [GenerateIcon.opaque alpha].
    destruct (FontFacts.icon_mask_values x y Hx Hy) as [-> | ->]; reflexivity.
  - intros x y Hin.
    destruct (MaskFacts.before_bounds f _ _ x y
                (or_intror (or_introl eq_refl)) Hin) as [Hx Hy].
    change (alpha (px GenerateIcon.masked_glow x y))
      with (px GenerateIcon.icon_mask x y).
    change (px GenerateIcon.glowing x y)
      with (composite_pixel
              (set_alpha (px GenerateIcon.gradient_canvas x y)
                         (px GenerateIcon.icon_mask x y))
              (px GenerateIcon.glow_layer x y)).
    destruct (FontFacts.icon_mask_values x y Hx Hy) as [Hm | Hm]; rewrite Hm.
    + assert (0 <= alpha (composite_pixel
                            (set_alpha (px GenerateIcon.gradient_canvas x y) 0)
                            (px GenerateIcon.glow_layer x y))).
      { apply MaskFacts.composite_alpha_nonneg; [reflexivity|].
        apply MaskFacts.glow_layer_alpha_nonneg.
        apply GradientFacts.blank_bounds. split; assumption. }
      lia.
    + now rewrite MaskFacts.composite_keeps_opaque.
Qed.

Lemma mask_application_overwrites_alpha_witness :
  alpha (px (GenerateIcon.finished Samples.serif) 400 500) = 255
  /\ alpha (px GenerateIcon.masked_glow 10 10)
     = Z.min (alpha (px GenerateIcon.glowing 10 10))
             (px GenerateIcon.icon_mask 10 10).
Proof.
  destruct (mask_application_overwrites_alpha Samples.serif) as (H & _ & Hglow).
  split.
  - destruct (H (GenerateIcon.lettered Samples.serif)
                (GenerateIcon.finished Samples.serif)) as [_ Hpx].
    + right. right. left. reflexivity.
    + destruct (Hpx 400 500) as [Ha _]; [reflexivity|].
      rewrite Ha. now vm_compute.
  - apply Hglow. reflexivity.
Defined.

(** ** What the canvas depends on *)

(** C7, as stated, makes any two runs of [create_icon] produce the same
    canvas.  A run on a machine where the Georgia Bold path loads a font whose
    letter covers pixel (400, 500), and a run on a machine with none of the
    listed fonts, whose default letter is small, differ there: white under
    the letter on the first, the glowing gradient on the second. *)
Lemma create_icon_depends_on_installed_fonts :
  ~ (forall E1 E2 img1 line1 img2 line2,
       GenerateIcon.create_icon E1 = Ok (img1, line1) ->
       GenerateIcon.create_icon E2 = Ok (img2, line2) ->
       forall x y, getpixel img1 x y = getpixel img2 x y).
Proof.
  intros H.
  assert (Hne : getpixel (GenerateIcon.finished Samples.serif) 400 500
                <> getpixel (GenerateIcon.finished Samples.builtin) 400 500)
    by (vm_compute; discriminate).
  apply Hne.
  exact (H Samples.mac Samples.bare _ _ _ _ eq_refl eq_refl 400 500).
Qed.

(** C7 (amended). [create_icon] always returns a canvas, and the canvas is
    determined by the constants of the script together with the font that
    resolution finds on the machine: two runs that resolve to the same font
    return the same canvas. *)
Theorem create_icon_determined_by_font (E1 E2 : GenerateIcon.env) :
  (exists r, GenerateIcon.create_icon E1 = Ok r)
  /\ (forall f line1 line2,
        GenerateIcon.resolve_font E1 = Ok (f, line1) ->
        GenerateIcon.resolve_font E2 = Ok (f, line2) ->
        exists img,
          GenerateIcon.create_icon E1 = Ok (img, line1)
          /\ GenerateIcon.create_icon E2 = Ok (img, line2)
          /\ img = putalpha (GenerateIcon.draw_letter GenerateIcon.masked_glow f)
                     GenerateIcon.icon_mask).
Proof.
  split; [apply FontFacts.create_icon_total|].
  intros f line1 line2 H1 H2. exists (GenerateIcon.finished f).
  split; [|split]; try now apply FontFacts.create_icon_of_font.
  reflexivity.
Qed.

Lemma create_icon_determined_by_font_witness :
  exists img line1 line2,
    GenerateIcon.create_icon Samples.mac = Ok (img, line1)
    /\ GenerateIcon.create_icon Samples.damaged = Ok (img, line2)
    /\ line1 <> line2.
Proof.
  destruct (create_icon_determined_by_font Samples.mac Samples.damaged)
    as [_ H].
  destruct (H Samples.serif ("Using font: " +:+ Samples.georgia_bold)
              ("Using font: " +:+ Samples.georgia) eq_refl eq_refl)
    as (img & H1 & H2 & _).
  exists img, ("Using font: " +:+ Samples.georgia_bold),
    ("Using font: " +:+ Samples.georgia).
  split; [exact H1|]. split; [exact H2|]. discriminate.
Defined.

(** * Further properties of the two scripts *)

Import Vocabulary.

(** ** Colours *)

Module ColourFacts.
Import GenerateIcon.

Lemma byte_values_In (c : Z) : is_byte c -> In c byte_values.
Proof. intros Hc. apply range_up_In. unfold is_byte in Hc. lia. Qed.

Lemma for_all_bytes (test : Z -> bool) :
  forallb test byte_values = true -> forall c, is_byte c -> test c = true.
Proof.
  intros H c Hc. rewrite forallb_forall in H. now apply H, byte_values_In.
Qed.

(** At [t = 0.0] and [t = 1.0] the float interpolation of one channel gives
    the end values back, for all pairs of bytes. *)
Lemma lerp_channel_table :
  forallb (fun a =>
             forallb (fun b => (lerp_channel a b (of_int 0) =? a)
                               && (lerp_channel a b (of_int 1) =? b))
                     byte_values)
          byte_values = true.
Proof. vm_compute. reflexivity. Qed.

Lemma lerp_channel_ends (a b : Z) :
  is_byte a -> is_byte b ->
  lerp_channel a b (of_int 0) = a /\ lerp_channel a b (of_int 1) = b.
Proof.
  intros Ha Hb.
  pose proof (for_all_bytes _ lerp_channel_table a Ha) as H.
  pose proof (for_all_bytes _ H b Hb) as H'. cbv beta in H'. lia.
Qed.

Lemma row_table : forallb row_check (py_range 0 (SIZE - 1) 1) = true.
Proof. vm_compute. reflexivity. Qed.

Lemma row_bytes_table : forallb row_bytes (py_range 0 SIZE 1) = true.
Proof. vm_compute. reflexivity. Qed.

Lemma gradient_pixel_bytes (x y : Z) :
  0 <= x < SIZE -> 0 <= y < SIZE -> byte_pixel (px gradient_canvas x y).
Proof.
  intros Hx Hy. rewrite GradientFacts.gradient_px by assumption.
  pose proof row_bytes_table as H. rewrite forallb_forall in H.
  specialize (H y (range_up_In _ _ Hy)). unfold row_bytes in H.
  destruct (gradient_color y) as [[r g] b]. unfold byte_pixel, is_byte.
  cbn [opaque red green blue alpha]. lia.
Qed.

End ColourFacts.

(** X1. [lerp_color] gives back its first colour at [t = 0.0] and its second
    colour at [t = 1.0], exactly, for all colours with 8-bit channels. *)
Theorem lerp_color_endpoints (c1 c2 : GenerateIcon.rgb) :
  (let '(r1, g1, b1) := c1 in is_byte r1 /\ is_byte g1 /\ is_byte b1) ->
  (let '(r2, g2, b2) := c2 in is_byte r2 /\ is_byte g2 /\ is_byte b2) ->
  GenerateIcon.lerp_color c1 c2 (of_int 0) = c1
  /\ GenerateIcon.lerp_color c1 c2 (of_int 1) = c2.
Proof.
  destruct c1 as [[r1 g1] b1], c2 as [[r2 g2] b2].
  intros (Hr1 & Hg1 & Hb1) (Hr2 & Hg2 & Hb2). unfold GenerateIcon.lerp_color.
  destruct (ColourFacts.lerp_channel_ends r1 r2 Hr1 Hr2) as [-> ->].
  destruct (ColourFacts.lerp_channel_ends g1 g2 Hg1 Hg2) as [-> ->].
  destruct (ColourFacts.lerp_channel_ends b1 b2 Hb1 Hb2) as [-> ->].
  split; reflexivity.
Qed.

Lemma lerp_color_endpoints_witness :
  GenerateIcon.lerp_color GenerateIcon.color_mid1 GenerateIcon.color_mid2
    (of_int 1) = (217, 133, 59).
Proof.
  apply (lerp_color_endpoints GenerateIcon.color_mid1 GenerateIcon.color_mid2);
    unfold is_byte; simpl; lia.
Defined.

(** X2. Down the gradient canvas no channel ever rises and none falls by
    more than one level from a row to the next, also across the two segment
    borders; the first row has [color_top] and the last row [color_bottom]. *)
Theorem gradient_descends_smoothly (x y : Z) :
  0 <= x < GenerateIcon.SIZE -> 0 <= y < GenerateIcon.SIZE - 1 ->
  let p := px GenerateIcon.gradient_canvas x y in
  let q := px GenerateIcon.gradient_canvas x (y + 1) in
  (red q <= red p <= red q + 1)
  /\ (green q <= green p <= green q + 1)
  /\ (blue q <= blue p <= blue q + 1)
  /\ px GenerateIcon.gradient_canvas x 0
     = GenerateIcon.opaque GenerateIcon.color_top
  /\ px GenerateIcon.gradient_canvas x (GenerateIcon.SIZE - 1)
     = GenerateIcon.opaque GenerateIcon.color_bottom.
Proof.
  intros Hx Hy p q. subst p q.
  rewrite !GradientFacts.gradient_px by (unfold GenerateIcon.SIZE in *; lia).
  pose proof ColourFacts.row_table as H. rewrite forallb_forall in H.
  specialize (H y (range_up_In _ _ Hy)). unfold row_check in H.
  destruct (GenerateIcon.gradient_color y) as [[r g] b].
  destruct (GenerateIcon.gradient_color (y + 1)) as [[r' g'] b'].
  cbn [GenerateIcon.opaque red green blue].
  repeat split; try lia; now vm_compute.
Qed.

Lemma gradient_descends_smoothly_witness :
  red (px GenerateIcon.gradient_canvas 5 308)
  <= red (px GenerateIcon.gradient_canvas 5 307)
  <= red (px GenerateIcon.gradient_canvas 5 308) + 1.
Proof.
  destruct (gradient_descends_smoothly 5 307) as (H & _);
    [unfold GenerateIcon.SIZE; lia | unfold GenerateIcon.SIZE; lia |].
  exact H.
Defined.

(** ** The crop *)

(** X3. The crop box of [crop_square_center] lies inside the source, is a
    square of side [min w h], and is centred: the margins cut on opposite
    sides differ by at most one pixel (the odd pixel goes right or below);
    the shorter dimension is kept whole. *)
Theorem crop_box_is_centered (w h : Z) :
  0 <= w -> 0 <= h ->
  let '(x0, y0, x1, y1) := ProcessIcon.crop_box w h in
  (0 <= x0 /\ x1 <= w /\ 0 <= y0 /\ y1 <= h)
  /\ (x1 - x0 = Z.min w h /\ y1 - y0 = Z.min w h)
  /\ (x0 <= w - x1 <= x0 + 1 /\ y0 <= h - y1 <= y0 + 1)
  /\ (h <= w -> y0 = 0 /\ y1 = h)
  /\ (w <= h -> x0 = 0 /\ x1 = w).
Proof.
  intros Hw Hh. unfold ProcessIcon.crop_box.
  assert (Hx := Z.div_mod (w - Z.min w h) 2).
  assert (Hy := Z.div_mod (h - Z.min w h) 2).
  pose proof (Z.mod_pos_bound (w - Z.min w h) 2).
  pose proof (Z.mod_pos_bound (h - Z.min w h) 2).
  repeat split; lia.
Qed.

Lemma crop_box_is_centered_witness :
  ProcessIcon.crop_box 1001 600 = (200, 0, 800, 600)
  /\ 200 <= 1001 - 800 <= 200 + 1.
Proof.
  assert (H := crop_box_is_centered 1001 600). simpl in H.
  destruct H as (_ & _ & (Hm & _) & _); [lia | lia |].
  split; [reflexivity | exact Hm].
Defined.

Module SquareFacts.
Import ProcessIcon.

Lemma crop_of_square (img : image) :
  width img = height img ->
  forall x y, getpixel (crop_square_center img) x y = getpixel img x y.
Proof.
  intros Hsq x y.
  assert (Hbox : crop_box (width img) (height img)
                 = (0, 0, width img, width img)).
  { unfold crop_box. rewrite <- Hsq, Z.min_id, Z.sub_diag.
    change (0 / 2) with 0. now rewrite Z.add_0_l. }
  unfold crop_square_center. rewrite Hbox.
  unfold getpixel, crop, in_bounds. cbn [width height px].
  rewrite <- Hsq, !Z.sub_0_r, !Z.add_0_l.
  destruct ((0 <=? x) && (x <? width img) && (0 <=? y) && (y <? width img));
    reflexivity.
Qed.

End SquareFacts.

(** X4. Cropping twice is cropping once: [crop_square_center] returns a
    square image, and on a square image it returns the same pixels. *)
Theorem crop_square_center_idempotent (img : image) :
  width (ProcessIcon.crop_square_center img)
  = height (ProcessIcon.crop_square_center img)
  /\ forall x y,
       getpixel (ProcessIcon.crop_square_center
                   (ProcessIcon.crop_square_center img)) x y
       = getpixel (ProcessIcon.crop_square_center img) x y.
Proof.
  destruct (CropFacts.crop_square_size img) as [Ew Eh].
  split; [now rewrite Ew, Eh|].
  intros x y. apply SquareFacts.crop_of_square. now rewrite Ew, Eh.
Qed.

(** ** Runs of the two [__main__] blocks *)

Module RunFacts.
Import ProcessIcon.

Lemma print_run (line : string) (w : world) :
  print line w = (Ok tt, mk_world (files w) (stdout w ++ [line])).
Proof. reflexivity. Qed.

Lemma open_run (E : env) (path : string) (w : world) bytes (img : image) :
  files w !! path = Some bytes -> decode E bytes = Ok img ->
  open_rgba E path w = (Ok img, w).
Proof. intros Hf Hd. unfold open_rgba. now rewrite Hf, Hd. Qed.

Lemma getsize_run (path : string) (w : world) bytes :
  files w !! path = Some bytes ->
  getsize path w = (Ok (Z.of_nat (length bytes)), w).
Proof. intros Hf. unfold getsize. now rewrite Hf. Qed.

Lemma save_run (E : env) (img : image) (path : string) (w : world) :
  writable E path = true ->
  save E img path w
  = (Ok tt, mk_world (<[path := encode E img]> (files w)) (stdout w)).
Proof. intros Hw. unfold save. now rewrite Hw. Qed.

Lemma save_fail (E : env) (img : image) (path : string) (w : world) :
  writable E path = false -> save E img path w = (Raised "OSError", w).
Proof. intros Hw. unfold save. now rewrite Hw. Qed.

(** The closing loop succeeds, and changes no file, when every asset is on
    disk and decodes. *)
Lemma verify_run (E : env) (names : list string) (w : world) :
  (forall name, In name names ->
     exists bytes img,
       files w !! asset_path name = Some bytes /\ decode E bytes = Ok img) ->
  exists out, verify E names w = (Ok tt, mk_world (files w) out).
Proof.
  revert w. induction names as [|name rest IH]; intros w Hall.
  - exists (stdout w). now destruct w.
  - destruct (Hall name (or_introl eq_refl)) as (bytes & img & Hf & Hd).
    cbn [verify].
    erewrite IoFacts.bind_ok by (eapply open_run; eassumption).
    erewrite IoFacts.bind_ok by (eapply getsize_run; eassumption).
    erewrite IoFacts.bind_ok by apply print_run.
    destruct (IH (mk_world (files w) (stdout w ++ [("  " +:+ name +:+ ": "
                    +:+ show_size img +:+ " (" +:+
                    pretty (Z.of_nat (length bytes) / 1024) +:+ "KB)")%string])))
      as [out Hout].
    + intros n Hn. apply Hall. now right.
    + exists out. exact Hout.
Qed.

(** Composition of runs that stay within a set of paths. *)
Lemma touches_bind {A B} (paths : list string) (m : io A) (k : A -> io B) :
  touches_only paths m -> (forall a, touches_only paths (k a)) ->
  touches_only paths (m ≫= k).
Proof.
  intros Hm Hk w path Hp. unfold mbind, io_bind.
  specialize (Hm w path Hp). destruct (m w) as [[a|e] w']; cbn [snd] in *.
  - now rewrite (Hk a w' path Hp).
  - exact Hm.
Qed.

Lemma touches_print (paths : list string) (line : string) :
  touches_only paths (print line).
Proof. intros w path _. reflexivity. Qed.

Lemma touches_open (paths : list string) (E : env) (p : string) :
  touches_only paths (open_rgba E p).
Proof.
  intros w path _. unfold open_rgba. now destruct (files w !! p).
Qed.

Lemma touches_getsize (paths : list string) (p : string) :
  touches_only paths (getsize p).
Proof. intros w path _. unfold getsize. now destruct (files w !! p). Qed.

Lemma touches_lift {A} (paths : list string) (r : result A) :
  touches_only paths (GenerateMain.lift r).
Proof. intros w path _. reflexivity. Qed.

Lemma touches_save (paths : list string) (E : env) (img : image) (p : string) :
  In p paths -> touches_only paths (save E img p).
Proof.
  intros Hin w path Hp. unfold save. destruct (writable E p); [|reflexivity].
  cbn [snd files]. apply lookup_insert_ne. intros ->. contradiction.
Qed.

Lemma touches_verify (paths : list string) (E : env) (names : list string) :
  touches_only paths (verify E names).
Proof.
  induction names as [|name rest IH]; [intros w path _; reflexivity|].
  cbn [verify]. apply touches_bind; [apply touches_open|]. intros img.
  apply touches_bind; [apply touches_getsize|]. intros size.
  apply touches_bind; [apply touches_print|]. intros _. exact IH.
Qed.

End RunFacts.

(** X5. Neither script writes outside its four asset paths: whatever the
    machine and however the run ends, every other file on disk (the source
    picture among them) is as it was before the run. *)
Theorem runs_touch_only_their_assets
    (F : GenerateIcon.env) (E : ProcessIcon.env) (root : string)
    (w : ProcessIcon.world) (path : string) :
  (~ In path process_assets ->
   ProcessIcon.files (snd (ProcessIcon.main E w)) !! path
   = ProcessIcon.files w !! path)
  /\ (~ In path (generate_assets root) ->
      ProcessIcon.files (snd (GenerateMain.main F E root w)) !! path
      = ProcessIcon.files w !! path).
Proof.
  split; intros Hp.
  - revert w path Hp.
    change (touches_only process_assets (ProcessIcon.main E)).
    unfold ProcessIcon.main.
    repeat first
      [ apply RunFacts.touches_print
      | apply RunFacts.touches_open
      | apply RunFacts.touches_verify
      | apply RunFacts.touches_save;
        unfold process_assets, ProcessIcon.asset_names; simpl; tauto
      | apply RunFacts.touches_bind; [|intros ?] ].
  - revert w path Hp.
    change (touches_only (generate_assets root) (GenerateMain.main F E root)).
    unfold GenerateMain.main.
    repeat first
      [ apply RunFacts.touches_print
      | apply RunFacts.touches_lift
      | apply RunFacts.touches_save;
        unfold generate_assets, ProcessIcon.asset_names; simpl; tauto
      | apply RunFacts.touches_bind; [|intros ?]
      | match goal with p : (image * string)%type |- _ => destruct p end ].
Qed.

Lemma runs_touch_only_their_assets_witness :
  ProcessIcon.files
    (snd (ProcessIcon.main MoreSamples.size_codec MoreSamples.photo_disk))
    !! ProcessIcon.SOURCE
  = Some (MoreSamples.size_bytes 2000 ++ MoreSamples.size_bytes 1000).
Proof.
  destruct (runs_touch_only_their_assets Samples.bare MoreSamples.size_codec
              "/repo" MoreSamples.photo_disk ProcessIcon.SOURCE) as [H _].
  rewrite H; [reflexivity|].
  vm_compute. intros [H1 | [H1 | [H1 | [H1 | []]]]]; discriminate.
Defined.

Module AssetFacts.
Import ProcessIcon.

Lemma resize_size (E : env) (img : image) (w h : Z) :
  width (resize E img w h) = w /\ height (resize E img w h) = h.
Proof.
  unfold resize.
  destruct (width img =? w) eqn:Hw, (height img =? h) eqn:Hh; simpl;
    try (split; reflexivity).
  split; lia.
Qed.

Lemma asset_path_inj (a b : string) : asset_path a = asset_path b -> a = b.
Proof.
  unfold asset_path. intros H.
  apply (inj (String.app ASSETS_DIR)) in H.
  now apply (inj (String.app "/")) in H.
Qed.

Lemma generate_asset_path_inj (root a b : string) :
  GenerateMain.asset_path root a = GenerateMain.asset_path root b -> a = b.
Proof.
  unfold GenerateMain.asset_path. intros H.
  apply (inj (String.app (GenerateMain.ASSETS_DIR root))) in H.
  now apply (inj (String.app "/")) in H.
Qed.

End AssetFacts.
